(** * Demo Shop: cart store, coffee builder and checkout

    A shallow embedding of the storefront's business logic:
    - [frontend/src/context/CartContext.js]  (the cart store),
    - [frontend/src/pages/CoffeeBuilder.js]  (the custom-item builder),
    - [frontend/src/pages/Cart.js]           (the checkout workflow).

    JavaScript numbers are IEEE-754 binary64 values and are modelled by
    Rocq's primitive floats, so every arithmetic step below rounds exactly
    as the program does.  Array indices are integers ([Z]); reading an
    array outside its bounds gives [undefined], which is written out.
    Code that can raise returns a [completion]. *)

From Stdlib Require Import ZArith QArith Floats String Ascii List Lia.
From stdpp Require Import base list gmap strings pretty.

Set Warnings "-inexact-float,-register-all".
Local Open Scope string_scope.
Local Open Scope Z_scope.
Local Open Scope list_scope.

(** ** JavaScript values *)

(** The values that travel through the cart: [customCoffee] payloads, the
    result of [JSON.parse], the reason of a rejected promise. *)
Inductive value : Type :=
| VUndefined
| VNull
| VBool (b : bool)
| VNum (n : float)
| VStr (s : string)
| VArr (elems : list value)
| VObj (props : list (string * value)).

(** [ToBoolean]: what [!v], [v || w] and [if (v)] test. *)
Definition ToBoolean (v : value) : bool :=
  match v with
  | VUndefined | VNull => false
  | VBool b => b
  | VNum n => negb (PrimFloat.eqb n 0 || negb (PrimFloat.eqb n n))
  | VStr s => negb (String.eqb s EmptyString)
  | VArr _ | VObj _ => true
  end.

(** A customization is "non-empty" when it is an object holding at least
    one option. *)
Definition nonempty_object (v : value) : Prop :=
  match v with VObj (_ :: _) => True | _ => False end.

Inductive exn : Type :=
| TypeError
| SyntaxError
| Thrown (reason : value).

Inductive completion (A : Type) : Type :=
| Normal (a : A)
| Throw (e : exn).
Arguments Normal {A} a.
Arguments Throw {A} e.

(** Sequencing: an abrupt completion skips the rest ([x ← c; k]). *)
#[global] Instance completion_ret : MRet completion := fun A a => Normal a.
#[global] Instance completion_bind : MBind completion := fun A B k c =>
  match c with
  | Normal a => k a
  | Throw e => Throw e
  end.

(** [try { body } catch (error) { handler }] *)
Definition try_catch {A} (body : completion A) (handler : exn -> completion A)
  : completion A :=
  match body with
  | Normal a => Normal a
  | Throw e => handler e
  end.

(** ** Arrays *)

(** [arr[i]]: [None] stands for [undefined]. *)
Definition js_index {A} (arr : list A) (i : Z) : option A :=
  if 0 <=? i then arr !! Z.to_nat i else None.

(** [arr.findIndex(p)] *)
Fixpoint findIndex_from {A} (p : A -> bool) (arr : list A) (i : Z) : Z :=
  match arr with
  | [] => -1
  | x :: rest => if p x then i else findIndex_from p rest (i + 1)
  end.

Definition findIndex {A} (p : A -> bool) (arr : list A) : Z :=
  findIndex_from p arr 0.

(** [arr.filter((x, i) => p(x, i))] *)
Fixpoint filter_from {A} (p : A -> Z -> bool) (arr : list A) (i : Z) : list A :=
  match arr with
  | [] => []
  | x :: rest =>
      if p x i then x :: filter_from p rest (i + 1)
      else filter_from p rest (i + 1)
  end.

Definition js_filter {A} (p : A -> Z -> bool) (arr : list A) : list A :=
  filter_from p arr 0.

(** [arr.reduce(f, init)] *)
Definition reduce {A B} (f : B -> A -> B) (init : B) (arr : list A) : B :=
  fold_left f arr init.

(** ** The cart store (CartContext.js) *)

Module Product.
Record t : Type := mk {
  _id : string;
  name : string;
  price : float;
  category : string;
  description : string;
  image : string
}.
End Product.

(** A cart line: [{ ...product, quantity, customCoffee }]. *)
Module CartItem.
Record t : Type := mk {
  _id : string;
  name : string;
  price : float;
  category : string;
  description : string;
  image : string;
  quantity : float;
  customCoffee : value
}.

(** [item.quantity = q] *)
Definition set_quantity (q : float) (item : t) : t :=
  mk (_id item) (name item) (price item) (category item) (description item)
     (image item) q (customCoffee item).
End CartItem.

Abbreviation Cart := (list CartItem.t).

(** [{ ...product, quantity, customCoffee }] *)
Definition spread (product : Product.t) (quantity : float) (customCoffee : value)
  : CartItem.t :=
  CartItem.mk (Product._id product) (Product.name product) (Product.price product)
    (Product.category product) (Product.description product) (Product.image product)
    quantity customCoffee.

(** The test of [findIndex] in [addToCart]:
    [item => item._id === product._id && !item.customCoffee]. *)
Definition mergeable (product : Product.t) (item : CartItem.t) : bool :=
  String.eqb (CartItem._id item) (Product._id product)
  && negb (ToBoolean (CartItem.customCoffee item)).

(** The state updater of [addToCart(product, quantity, customCoffee)]. *)
Definition addToCart (product : Product.t) (quantity : float) (customCoffee : value)
    (prevCart : Cart) : completion Cart :=
  let existingItemIndex := findIndex (mergeable product) prevCart in
  if (existingItemIndex >? -1) && negb (ToBoolean customCoffee) then
    let newCart := prevCart in
    match js_index newCart existingItemIndex with
    | None => Throw TypeError
    | Some item =>
        Normal (<[Z.to_nat existingItemIndex :=
                   CartItem.set_quantity (CartItem.quantity item + quantity)%float item]>
                  newCart)
    end
  else
    Normal (prevCart ++ [spread product quantity customCoffee]).

(** Default parameters: [quantity = 1], [customCoffee = null]. *)
Definition addToCart_call (product : Product.t) (quantity : option float)
    (customCoffee : option value) : Cart -> completion Cart :=
  addToCart product (default 1%float quantity) (default VNull customCoffee).

Definition removeFromCart (index : Z) (prevCart : Cart) : completion Cart :=
  Normal (js_filter (fun _ i => negb (i =? index)) prevCart).

Definition updateQuantity (index : Z) (quantity : float) (prevCart : Cart)
  : completion Cart :=
  if (quantity <=? 0)%float then removeFromCart index prevCart
  else
    let newCart := prevCart in
    match js_index newCart index with
    | None => Throw TypeError
    | Some item =>
        Normal (<[Z.to_nat index := CartItem.set_quantity quantity item]> newCart)
    end.

Definition clearCart (_ : Cart) : completion Cart := Normal [].

Definition getCartTotal (cart : Cart) : float :=
  reduce (fun total item => (total + CartItem.price item * CartItem.quantity item)%float)
    0%float cart.

Definition getCartCount (cart : Cart) : float :=
  reduce (fun count item => (count + CartItem.quantity item)%float) 0%float cart.

(** ** Cart entries as shared objects *)

(** The entries of the cart are objects and the arrays hold references to
    them: [[...prevCart]] copies the references, so the write
    [newCart[i].quantity = ...] lands in an object that the previous
    array holds too.  [Shared] spells this out; below it is shown to agree
    with the updaters above, which React applies once per call to the
    state that precedes it. *)
Module Shared.

(** What an array of references denotes in a heap. *)
Fixpoint view (h : gmap nat CartItem.t) (arr : list nat) : option Cart :=
  match arr with
  | [] => Some []
  | r :: rest =>
      item ← h !! r; items ← view h rest; Some (item :: items)
  end.

Definition mergeable_at (product : Product.t) (h : gmap nat CartItem.t) (r : nat) : bool :=
  match h !! r with
  | Some item => mergeable product item
  | None => false
  end.

Definition addToCart (product : Product.t) (quantity : float) (customCoffee : value)
    (prevCart : list nat) (h : gmap nat CartItem.t)
  : completion (list nat * gmap nat CartItem.t) :=
  let existingItemIndex := findIndex (mergeable_at product h) prevCart in
  if (existingItemIndex >? -1) && negb (ToBoolean customCoffee) then
    let newCart := prevCart in
    match js_index newCart existingItemIndex ≫= fun r => pair r <$> h !! r with
    | None => Throw TypeError
    | Some (r, item) =>
        Normal (newCart,
                <[r := CartItem.set_quantity (CartItem.quantity item + quantity)%float item]> h)
    end
  else
    let r := fresh (dom h) in
    Normal (prevCart ++ [r], <[r := spread product quantity customCoffee]> h).

Definition updateQuantity_write (index : Z) (quantity : float)
    (prevCart : list nat) (h : gmap nat CartItem.t)
  : completion (list nat * gmap nat CartItem.t) :=
  let newCart := prevCart in
  match js_index newCart index ≫= fun r => pair r <$> h !! r with
  | None => Throw TypeError
  | Some (r, item) => Normal (newCart, <[r := CartItem.set_quantity quantity item]> h)
  end.

End Shared.

(** ** The coffee builder (CoffeeBuilder.js) *)

Module CoffeeBuilder.

(** The four [useState] cells. *)
Record state : Type := mk {
  sugar : float;
  milk : string;
  coffee : float;
  chocolate : float
}.

Definition initial : state := mk 0 "none" 1 0.

Definition basePrice : float := 3.50.

Module addOns.
Definition sugar : float := 0.25.
Module milk.
Definition regular : float := 0.50.
Definition oat : float := 0.75.
End milk.
Definition coffee : float := 0.75.
Definition chocolate : float := 0.50.
End addOns.

Definition calculatePrice (s : state) : float :=
  let price := basePrice in
  let price := (price + sugar s * addOns.sugar)%float in
  let price :=
    if String.eqb (milk s) "regular" then (price + addOns.milk.regular)%float
    else price in
  let price :=
    if String.eqb (milk s) "oat" then (price + addOns.milk.oat)%float
    else price in
  let price := (price + (coffee s - 1) * addOns.coffee)%float in
  let price := (price + chocolate s * addOns.chocolate)%float in
  price.

(** [Math.max] and [Math.min]: NaN is contagious, and [+0] is above [-0]. *)
Definition Math_max (a b : float) : float :=
  if PrimFloat.is_nan a || PrimFloat.is_nan b then PrimFloat.nan
  else if (a <? b)%float then b
  else if (b <? a)%float then a
  else if PrimFloat.get_sign a then b else a.

Definition Math_min (a b : float) : float :=
  if PrimFloat.is_nan a || PrimFloat.is_nan b then PrimFloat.nan
  else if (a <? b)%float then a
  else if (b <? a)%float then b
  else if PrimFloat.get_sign a then a else b.

(** The three radio inputs and their [value] attributes. *)
Inductive radio : Type := RadioNone | RadioRegular | RadioOat.

Definition radio_value (r : radio) : string :=
  match r with
  | RadioNone => "none"
  | RadioRegular => "regular"
  | RadioOat => "oat"
  end.

(** The controls of the page. *)
Inductive event : Type :=
| SugarMinus | SugarPlus
| MilkChange (r : radio)
| CoffeeMinus | CoffeePlus
| ChocolateMinus | ChocolatePlus.

Definition handle (e : event) (s : state) : state :=
  match e with
  | SugarMinus => mk (Math_max 0 (sugar s - 1)) (milk s) (coffee s) (chocolate s)
  | SugarPlus => mk (Math_min 5 (sugar s + 1)) (milk s) (coffee s) (chocolate s)
  | MilkChange r => mk (sugar s) (radio_value r) (coffee s) (chocolate s)
  | CoffeeMinus => mk (sugar s) (milk s) (Math_max 1 (coffee s - 1)) (chocolate s)
  | CoffeePlus => mk (sugar s) (milk s) (Math_min 4 (coffee s + 1)) (chocolate s)
  | ChocolateMinus => mk (sugar s) (milk s) (coffee s) (Math_max 0 (chocolate s - 1))
  | ChocolatePlus => mk (sugar s) (milk s) (coffee s) (Math_min 5 (chocolate s + 1))
  end.

Definition run (es : list event) (s : state) : state :=
  fold_left (fun s e => handle e s) es s.

(** The option states a user can reach. *)
Definition reachable (s : state) : Prop := exists es, s = run es initial.

Definition image : string :=
  "data:image/svg+xml;base64,PHN2ZyB4bWxucz0iaHR0cDovL3d3dy53My5vcmcvMjAwMC9zdmciIHdpZHRoPSIzMDAiIGhlaWdodD0iMjAwIj48cmVjdCB3aWR0aD0iMzAwIiBoZWlnaHQ9IjIwMCIgZmlsbD0iIzhCNDUxMyIvPjx0ZXh0IHg9IjUwJSIgeT0iNTAlIiBmb250LWZhbWlseT0iQXJpYWwiIGZvbnQtc2l6ZT0iMzAiIGZpbGw9IndoaXRlIiB0ZXh0LWFuY2hvcj0ibWlkZGxlIiBkb21pbmFudC1iYXNlbGluZT0ibWlkZGxlIj7imJUgQ3VzdG9tPC90ZXh0Pjwvc3ZnPg==".

(** [handleAddToCart], up to the navigation; [now] is [Date.now()]. *)
Definition handleAddToCart (now : Z) (s : state) : Cart -> completion Cart :=
  let customCoffee :=
    Product.mk ("custom-coffee-" +:+ pretty now) "Custom Coffee" (calculatePrice s)
      "Coffee" "Your custom coffee creation" image in
  let coffeeConfig :=
    VObj [("sugar", VNum (sugar s)); ("milk", VStr (milk s));
          ("coffee", VNum (coffee s)); ("chocolate", VNum (chocolate s))] in
  addToCart customCoffee 1 coffeeConfig.

(** Option levels as the integers the page displays. *)
Definition level (n : Z) : float := PrimFloat.of_uint63 (Uint63.of_Z n).

Definition state_of (su : Z) (m : radio) (co ch : Z) : state :=
  mk (level su) (radio_value m) (level co) (level ch).

End CoffeeBuilder.

(** ** Exact values of binary64 numbers *)

(** The rational a finite float denotes; [None] for NaN and the
    infinities. *)
Definition float_to_Q (x : float) : option Q :=
  match Prim2SF x with
  | S754_zero _ => Some 0%Q
  | S754_finite s m e =>
      let q := (inject_Z (Zpos m) * Qpower 2 e)%Q in
      Some (Qred (if s then Qopp q else q))
  | S754_infinity _ | S754_nan => None
  end.

(** ** The cart page and its checkout (Cart.js) *)

Module CartPage.

(** One line of the order payload. *)
Record OrderLine : Type := mkLine {
  productId : string;
  name : string;
  price : float;
  quantity : float;
  customCoffee : value
}.

Record OrderData : Type := mkOrder {
  items : list OrderLine;
  totalAmount : float
}.

(** [a || b] *)
Definition js_or (a b : value) : value := if ToBoolean a then a else b.

Definition orderData (cart : Cart) : OrderData :=
  mkOrder
    (map (fun item =>
            mkLine (CartItem._id item) (CartItem.name item) (CartItem.price item)
              (CartItem.quantity item)
              (js_or (CartItem.customCoffee item) VUndefined))
         cart)
    (getCartTotal cart).

(** A call [fetch('/api/orders', { method: 'POST', ... })]. *)
Record Request : Type := mkRequest {
  url : string;
  method : string;
  body : OrderData
}.

Record Response : Type := mkResponse { status : Z }.

(** [response.ok]: the status is in the range 200-299. *)
Definition ok (r : Response) : bool := (200 <=? status r) && (status r <=? 299).

(** How a pending [fetch] settles. *)
Inductive outcome : Type :=
| Resolves (response : Response)
| Rejects (reason : value).

Definition await (o : outcome) : completion Response :=
  match o with
  | Resolves response => Normal response
  | Rejects reason => Throw (Thrown reason)
  end.

(** The cart of the provider, the two state cells of the page, and the
    page's footprint outside React: the calls in flight, the timers set
    and what was written to the console. *)
Record World : Type := mkWorld {
  cart : Cart;
  showCheckout : bool;
  toast : option string;
  in_flight : list Request;
  timers : list Z;
  console : list (string * exn)
}.

Definition setCart (f : Cart -> completion Cart) (w : World) : completion World :=
  c ← f (cart w);
  mret (mkWorld c (showCheckout w) (toast w) (in_flight w) (timers w) (console w)).

Definition setShowCheckout (b : bool) (w : World) : World :=
  mkWorld (cart w) b (toast w) (in_flight w) (timers w) (console w).

Definition setToast (t : option string) (w : World) : World :=
  mkWorld (cart w) (showCheckout w) t (in_flight w) (timers w) (console w).

Definition fetch (r : Request) (w : World) : World :=
  mkWorld (cart w) (showCheckout w) (toast w) (in_flight w ++ [r]) (timers w) (console w).

Definition setTimeout (delay : Z) (w : World) : World :=
  mkWorld (cart w) (showCheckout w) (toast w) (in_flight w) (timers w ++ [delay]) (console w).

Definition console_error (msg : string) (e : exn) (w : World) : World :=
  mkWorld (cart w) (showCheckout w) (toast w) (in_flight w) (timers w)
    (console w ++ [(msg, e)]).

Definition msg_success : string := "Order placed successfully! 🎉".
Definition msg_failed : string := "Failed to place order. Please try again.".
Definition msg_error : string := "Error placing order. Please try again.".

(** [handleCheckout] up to its [await]: the payload is built from the
    cart of the current render and the call is issued. *)
Definition handleCheckout_send (w : World) : World :=
  fetch (mkRequest "/api/orders" "POST" (orderData (cart w))) w.

(** [handleCheckout] from its [await] on, once the call has settled. *)
Definition handleCheckout_settle (o : outcome) (w : World) : completion World :=
  try_catch
    (response ← await o;
     if ok response then
       mret (setTimeout 2000 (setToast (Some msg_success) w))
     else
       mret (setToast (Some msg_failed) w))
    (fun error =>
       mret (setToast (Some msg_error) (console_error "Error placing order:" error w))).

(** The callback of the timer set on success. *)
Definition timer_callback (w : World) : completion World :=
  w ← setCart clearCart w;
  mret (setShowCheckout false w).

(** The controls of the page. *)
Inductive control : Type :=
| Minus (index : Z) | Plus (index : Z) | Remove (index : Z)
| ProceedToCheckout | ClearCart
| PlaceOrder | Cancel
| ToastClose.

(** Which controls the page renders.  With an empty cart only the
    empty-state message is rendered. *)
Definition rendered (w : World) (c : control) : bool :=
  match cart w with
  | [] => false
  | _ :: _ =>
      match c with
      | Minus i | Plus i | Remove i => (0 <=? i) && (i <? Z.of_nat (length (cart w)))
      | ProceedToCheckout | ClearCart => negb (showCheckout w)
      | PlaceOrder | Cancel => showCheckout w
      | ToastClose => bool_decide (is_Some (toast w) /\ toast w <> Some EmptyString)
      end
  end.

(** The toast on screen: [{toast && <Toast message={toast} />}]. *)
Definition shown_toast (w : World) : option string :=
  match cart w with
  | [] => None
  | _ :: _ => match toast w with
              | Some EmptyString => None
              | t => t
              end
  end.

Definition onClick (c : control) (w : World) : completion World :=
  match c with
  | Minus index =>
      match js_index (cart w) index with
      | Some item => setCart (updateQuantity index (CartItem.quantity item - 1)%float) w
      | None => Throw TypeError
      end
  | Plus index =>
      match js_index (cart w) index with
      | Some item => setCart (updateQuantity index (CartItem.quantity item + 1)%float) w
      | None => Throw TypeError
      end
  | Remove index => setCart (removeFromCart index) w
  | ProceedToCheckout => mret (setShowCheckout true w)
  | ClearCart => setCart clearCart w
  | PlaceOrder => mret (handleCheckout_send w)
  | Cancel => mret (setShowCheckout false w)
  | ToastClose => mret (setToast None w)
  end.

(** What can happen to the page: a click on a control (which reaches a
    handler only if the control is on screen), the settling of the
    oldest or of any later pending call, the firing of a timer. *)
Inductive event : Type :=
| Click (c : control)
| Settle (k : nat) (o : outcome)
| TimerFires.

Definition step (e : event) (w : World) : completion World :=
  match e with
  | Click c => if rendered w c then onClick c w else mret w
  | Settle k o =>
      match in_flight w !! k with
      | Some _ =>
          handleCheckout_settle o
            (mkWorld (cart w) (showCheckout w) (toast w) (delete k (in_flight w))
               (timers w) (console w))
      | None => mret w
      end
  | TimerFires =>
      match timers w with
      | _ :: rest =>
          timer_callback
            (mkWorld (cart w) (showCheckout w) (toast w) (in_flight w) rest (console w))
      | [] => mret w
      end
  end.

Fixpoint run (es : list event) (w : World) : completion World :=
  match es with
  | [] => mret w
  | e :: es => w ← step e w; run es w
  end.

End CartPage.

(** ** [JSON.parse] *)

Module JSON.

Inductive token : Type :=
| TLBracket | TRBracket | TLBrace | TRBrace | TComma | TColon
| TStr (s : string)
| TLit (v : value).

Definition code (c : ascii) : Z := Z.of_N (N_of_ascii c).
Definition chr (n : Z) : ascii := ascii_of_N (Z.to_N n).

Definition is_ws (c : ascii) : bool :=
  let n := code c in (n =? 32) || (n =? 9) || (n =? 10) || (n =? 13).

Definition is_digit (c : ascii) : bool := (48 <=? code c) && (code c <=? 57).

Definition is_letter (c : ascii) : bool := (97 <=? code c) && (code c <=? 122).

Definition hex_digit (c : ascii) : option Z :=
  let n := code c in
  if (48 <=? n) && (n <=? 57) then Some (n - 48)
  else if (97 <=? n) && (n <=? 102) then Some (n - 87)
  else if (65 <=? n) && (n <=? 70) then Some (n - 55)
  else None.

(** The UTF-8 bytes of a UTF-16 code unit, last byte first. *)
Definition utf8_rev (u : Z) : list ascii :=
  if u <? 128 then [chr u]
  else if u <? 2048 then [chr (128 + u mod 64); chr (192 + u / 64)]
  else [chr (128 + u mod 64); chr (128 + (u / 64) mod 64); chr (224 + u / 4096)].

Definition string_of_rev (cs : list ascii) : string :=
  fold_left (fun s c => String c s) cs EmptyString.

(** *** Numbers *)

(** The nearest binary64 number to [m * 10 ^ e], ties to even. *)
Definition decimal_to_float (m e : Z) : float :=
  if 0 <=? e then SF2Prim (binary_normalize 53 1024 (m * 10 ^ e) 0 false)
  else
    let d := 10 ^ (- e) in
    let s := Z.max 0 (64 + Z.log2 d - Z.log2 (Z.abs m)) in
    let n := Z.abs m * 2 ^ s in
    let q := n / d in
    let sticky := if n mod d =? 0 then 0 else 1 in
    let r := 2 * q + sticky in
    SF2Prim (binary_normalize 53 1024 (if m <? 0 then - r else r) (- s - 1) false).

Inductive num_state : Type :=
| NStart | NMinus | NZero | NInt | NDot | NFrac | NE | NESign | NExp.

(** The number automaton: state, sign, digits read, digits after the
    point, sign and digits of the exponent. *)
Record num_acc : Type := mkNum {
  n_state : num_state;
  n_neg : bool;
  n_mant : Z;
  n_frac : Z;
  n_eneg : bool;
  n_exp : Z
}.

Definition num_step (a : num_acc) (c : ascii) : option num_acc :=
  let d := code c - 48 in
  let '(mkNum st neg mant frac eneg ex) := a in
  match st with
  | NStart =>
      if code c =? 45 then Some (mkNum NMinus true mant frac eneg ex)
      else if code c =? 48 then Some (mkNum NZero neg 0 frac eneg ex)
      else if is_digit c then Some (mkNum NInt neg d frac eneg ex)
      else None
  | NMinus =>
      if code c =? 48 then Some (mkNum NZero neg 0 frac eneg ex)
      else if is_digit c then Some (mkNum NInt neg d frac eneg ex)
      else None
  | NZero =>
      if code c =? 46 then Some (mkNum NDot neg mant frac eneg ex)
      else if (code c =? 101) || (code c =? 69) then Some (mkNum NE neg mant frac eneg ex)
      else None
  | NInt =>
      if is_digit c then Some (mkNum NInt neg (10 * mant + d) frac eneg ex)
      else if code c =? 46 then Some (mkNum NDot neg mant frac eneg ex)
      else if (code c =? 101) || (code c =? 69) then Some (mkNum NE neg mant frac eneg ex)
      else None
  | NDot =>
      if is_digit c then Some (mkNum NFrac neg (10 * mant + d) (frac + 1) eneg ex)
      else None
  | NFrac =>
      if is_digit c then Some (mkNum NFrac neg (10 * mant + d) (frac + 1) eneg ex)
      else if (code c =? 101) || (code c =? 69) then Some (mkNum NE neg mant frac eneg ex)
      else None
  | NE =>
      if code c =? 43 then Some (mkNum NESign neg mant frac false ex)
      else if code c =? 45 then Some (mkNum NESign neg mant frac true ex)
      else if is_digit c then Some (mkNum NExp neg mant frac eneg d)
      else None
  | NESign | NExp =>
      if is_digit c then Some (mkNum NExp neg mant frac eneg (10 * ex + d))
      else None
  end.

Fixpoint num_run (a : num_acc) (cs : list ascii) : option num_acc :=
  match cs with
  | [] => Some a
  | c :: cs => a ← num_step a c; num_run a cs
  end.

(** The value of a number lexeme, if it is one. *)
Definition number (cs : list ascii) : option float :=
  a ← num_run (mkNum NStart false 0 0 false 0) cs;
  match n_state a with
  | NZero | NInt | NFrac | NExp =>
      let e := (if n_eneg a then - n_exp a else n_exp a) - n_frac a in
      let x := decimal_to_float (n_mant a) e in
      Some (if n_neg a then (- x)%float else x)
  | _ => None
  end.

Definition word (cs : list ascii) : option value :=
  let w := string_of_rev (rev cs) in
  if String.eqb w "null" then Some VNull
  else if String.eqb w "true" then Some (VBool true)
  else if String.eqb w "false" then Some (VBool false)
  else None.

(** *** Lexer *)

Inductive lex_state : Type :=
| LTop
| LStr (acc : list ascii)
| LEsc (acc : list ascii)
| LUni (acc : list ascii) (todo : nat) (u : Z)
| LNum (acc : list ascii)
| LWord (acc : list ascii).

Definition is_num_char (c : ascii) : bool :=
  is_digit c || (code c =? 46) || (code c =? 101) || (code c =? 69)
  || (code c =? 43) || (code c =? 45).

(** A character met between tokens; tokens are collected last first. *)
Definition lex_top (c : ascii) (out : list token) : option (lex_state * list token) :=
  let n := code c in
  if is_ws c then Some (LTop, out)
  else if n =? 91 then Some (LTop, TLBracket :: out)
  else if n =? 93 then Some (LTop, TRBracket :: out)
  else if n =? 123 then Some (LTop, TLBrace :: out)
  else if n =? 125 then Some (LTop, TRBrace :: out)
  else if n =? 44 then Some (LTop, TComma :: out)
  else if n =? 58 then Some (LTop, TColon :: out)
  else if n =? 34 then Some (LStr [], out)
  else if (n =? 45) || is_digit c then Some (LNum [c], out)
  else if is_letter c then Some (LWord [c], out)
  else None.

Definition escape (c : ascii) : option ascii :=
  let n := code c in
  if (n =? 34) || (n =? 92) || (n =? 47) then Some c
  else if n =? 98 then Some (chr 8)
  else if n =? 102 then Some (chr 12)
  else if n =? 110 then Some (chr 10)
  else if n =? 114 then Some (chr 13)
  else if n =? 116 then Some (chr 9)
  else None.

Definition lex_step (st : lex_state) (out : list token) (c : ascii)
  : option (lex_state * list token) :=
  match st with
  | LTop => lex_top c out
  | LStr acc =>
      if code c =? 34 then Some (LTop, TStr (string_of_rev acc) :: out)
      else if code c =? 92 then Some (LEsc acc, out)
      else if code c <? 32 then None
      else Some (LStr (c :: acc), out)
  | LEsc acc =>
      if code c =? 117 then Some (LUni acc 4 0, out)
      else e ← escape c; Some (LStr (e :: acc), out)
  | LUni acc todo u =>
      d ← hex_digit c;
      match todo with
      | S (S todo) => Some (LUni acc (S todo) (16 * u + d), out)
      | _ => Some (LStr (utf8_rev (16 * u + d) ++ acc), out)
      end
  | LNum acc =>
      if is_num_char c then Some (LNum (c :: acc), out)
      else x ← number (rev acc); lex_top c (TLit (VNum x) :: out)
  | LWord acc =>
      if is_letter c then Some (LWord (c :: acc), out)
      else v ← word (rev acc); lex_top c (TLit v :: out)
  end.

Fixpoint lex (s : string) (st : lex_state) (out : list token) : option (list token) :=
  match s with
  | EmptyString =>
      match st with
      | LTop => Some (rev out)
      | LNum acc => x ← number (rev acc); Some (rev (TLit (VNum x) :: out))
      | LWord acc => v ← word (rev acc); Some (rev (TLit v :: out))
      | LStr _ | LEsc _ | LUni _ _ _ => None
      end
  | String c s => '(st, out) ← lex_step st out c; lex s st out
  end.

(** *** Parser *)

(** The containers being filled; elements and members last first. *)
Inductive frame : Type :=
| InArr (elems : list value)
| InObj (props : list (string * value)) (key : string).

Inductive parse_state : Type :=
| PValue (stack : list frame)
| PArrStart (stack : list frame)
| PAfterElem (elems : list value) (stack : list frame)
| PObjStart (stack : list frame)
| PKey (props : list (string * value)) (stack : list frame)
| PColon (props : list (string * value)) (key : string) (stack : list frame)
| PAfterMember (props : list (string * value)) (stack : list frame)
| PDone (v : value).

(** A repeated key keeps its first place and takes the last value. *)
Fixpoint set_prop (k : string) (v : value) (props : list (string * value))
  : option (list (string * value)) :=
  match props with
  | [] => None
  | (k', v') :: rest =>
      if String.eqb k k' then Some ((k, v) :: rest)
      else rest' ← set_prop k v rest; Some ((k', v') :: rest')
  end.

Definition add_prop (k : string) (v : value) (props : list (string * value))
  : list (string * value) :=
  match set_prop k v props with
  | Some props' => props'
  | None => (k, v) :: props
  end.

Definition complete (v : value) (stack : list frame) : parse_state :=
  match stack with
  | [] => PDone v
  | InArr elems :: stack => PAfterElem (v :: elems) stack
  | InObj props key :: stack => PAfterMember (add_prop key v props) stack
  end.

Definition value_start (t : token) (stack : list frame) : option parse_state :=
  match t with
  | TLit v => Some (complete v stack)
  | TStr s => Some (complete (VStr s) stack)
  | TLBracket => Some (PArrStart stack)
  | TLBrace => Some (PObjStart stack)
  | _ => None
  end.

Definition parse_step (st : parse_state) (t : token) : option parse_state :=
  match st, t with
  | PValue stack, _ => value_start t stack
  | PArrStart stack, TRBracket => Some (complete (VArr []) stack)
  | PArrStart stack, _ => value_start t (InArr [] :: stack)
  | PAfterElem elems stack, TComma => Some (PValue (InArr elems :: stack))
  | PAfterElem elems stack, TRBracket => Some (complete (VArr (rev elems)) stack)
  | PObjStart stack, TRBrace => Some (complete (VObj []) stack)
  | PObjStart stack, TStr k => Some (PColon [] k stack)
  | PKey props stack, TStr k => Some (PColon props k stack)
  | PColon props k stack, TColon => Some (PValue (InObj props k :: stack))
  | PAfterMember props stack, TComma => Some (PKey props stack)
  | PAfterMember props stack, TRBrace => Some (complete (VObj (rev props)) stack)
  | _, _ => None
  end.

Fixpoint parse_tokens (st : parse_state) (ts : list token) : option value :=
  match ts with
  | [] => match st with PDone v => Some v | _ => None end
  | t :: ts => st ← parse_step st t; parse_tokens st ts
  end.

Definition parse (text : string) : completion value :=
  match lex text LTop [] ≫= parse_tokens (PValue []) with
  | Some v => Normal v
  | None => Throw SyntaxError
  end.

End JSON.

(** ** The cart on mount (CartProvider) *)

Definition localStorage : Type := gmap string string.

(** [localStorage.getItem(key)]; [None] stands for [null]. *)
Definition getItem (key : string) (storage : localStorage) : option string :=
  storage !! key.

(** The state held by [useState([])] before the effects run. *)
Definition initial_cart : value := VArr [].

(** The first effect of [CartProvider]: the cart state it leaves, or the
    exception that escapes it. *)
Definition load_cart (storage : localStorage) : completion value :=
  let savedCart := getItem "cart" storage in
  match savedCart with
  | Some text =>
      if negb (String.eqb text EmptyString) then
        parsed ← JSON.parse text; mret parsed
      else mret initial_cart
  | None => mret initial_cart
  end.

(** ** Vocabulary of the specification *)

(** The mutations of the cart store, and the carts they lead to. *)
Inductive op : Type :=
| AddItem (product : Product.t) (quantity : float) (customization : value)
| RemoveItem (index : Z)
| UpdateQuantity (index : Z) (newQuantity : float)
| Clear.

Definition apply (o : op) : Cart -> completion Cart :=
  match o with
  | AddItem product quantity customization => addToCart product quantity customization
  | RemoveItem index => removeFromCart index
  | UpdateQuantity index newQuantity => updateQuantity index newQuantity
  | Clear => clearCart
  end.

Fixpoint apply_all (os : list op) (cart : Cart) : completion Cart :=
  match os with
  | [] => mret cart
  | o :: os => cart ← apply o cart; apply_all os cart
  end.

Definition reachable_cart (cart : Cart) : Prop :=
  exists os, apply_all os [] = Normal cart.

(** A sequence of [addItem] calls: product, requested quantity and
    customization of each. *)
Definition add_each (calls : list (Product.t * float * value)) : list op :=
  map (fun '(product, quantity, customization) => AddItem product quantity customization)
    calls.

(** The call is for product [id] and passes no customization ([null],
    [undefined] or another falsy value). *)
Definition plain_call_for (id : string) (call : Product.t * float * value) : Prop :=
  Product._id call.1.1 = id /\ ToBoolean call.2 = false.

(** An entry lacks a customization when its [customCoffee] is falsy. *)
Definition plain (item : CartItem.t) : bool := negb (ToBoolean (CartItem.customCoffee item)).

(** An entry for product [id] that lacks a customization. *)
Definition plain_entry_of (id : string) (item : CartItem.t) : Prop :=
  CartItem._id item = id /\ plain item = true.

Definition entries_for (id : string) (cart : Cart) : list CartItem.t :=
  filter (fun item => CartItem._id item = id) cart.

Definition plain_entries_for (id : string) (cart : Cart) : list CartItem.t :=
  filter (fun item => plain item) (entries_for id cart).

(** No two entries share a product id while both lack a customization. *)
Definition plain_ids (cart : Cart) : list string :=
  CartItem._id <$> filter (fun item => plain item) cart.

Definition no_duplicate_plain (cart : Cart) : Prop := NoDup (plain_ids cart).

(** #&Sigma;# of [t1 .. tn] in the program's arithmetic: nothing for no
    term, and the sum of the first [n-1] terms plus [tn]. *)
Fixpoint sigma_rev (terms : list float) : float :=
  match terms with
  | [] => 0%float
  | t :: earlier => (sigma_rev earlier + t)%float
  end.

Definition sigma (terms : list float) : float := sigma_rev (rev terms).

(** [q1 + q2 + ... + qn] on top of a quantity already there. *)
Definition add_up (start : float) (quantities : list float) : float :=
  fold_left PrimFloat.add quantities start.

(** The quantities a sequence of calls requests. *)
Definition requested (calls : list (Product.t * float * value)) : list float :=
  map (fun call => call.1.2) calls.

(** The price of a coffee as the specification writes it. *)
Definition milk_delta (m : CoffeeBuilder.radio) : Q :=
  match m with
  | CoffeeBuilder.RadioNone => 0
  | CoffeeBuilder.RadioRegular => 1 # 2
  | CoffeeBuilder.RadioOat => 3 # 4
  end.

Definition spec_price (su : Z) (m : CoffeeBuilder.radio) (co ch : Z) : Q :=
  (7 # 2) + (1 # 4) * inject_Z su + milk_delta m
  + (3 # 4) * inject_Z (co - 1) + (1 # 2) * inject_Z ch.

(** The option levels the page allows. *)
Definition in_ranges (su co ch : Z) : Prop :=
  0 <= su <= 5 /\ 1 <= co <= 4 /\ 0 <= ch <= 5.

(** Exhaustive checks over the finitely many option states. *)
Definition zrange (lo hi : Z) : list Z :=
  map (fun i => lo + Z.of_nat i) (seq 0 (Z.to_nat (hi + 1 - lo))).

Definition zall (lo hi : Z) (P : Z -> bool) : bool := forallb P (zrange lo hi).

Definition rall (P : CoffeeBuilder.radio -> bool) : bool :=
  forallb P [CoffeeBuilder.RadioNone; CoffeeBuilder.RadioRegular; CoffeeBuilder.RadioOat].

Definition all_states (P : Z -> CoffeeBuilder.radio -> Z -> Z -> bool) : bool :=
  zall 0 5 (fun su => rall (fun m => zall 1 4 (fun co => zall 0 5 (fun ch => P su m co ch)))).

Definition price_of (su : Z) (m : CoffeeBuilder.radio) (co ch : Z) : float :=
  CoffeeBuilder.calculatePrice (CoffeeBuilder.state_of su m co ch).

Definition price_exact (su : Z) (m : CoffeeBuilder.radio) (co ch : Z) : bool :=
  match float_to_Q (price_of su m co ch) with
  | Some q => Qeq_bool q (spec_price su m co ch)
  | None => false
  end.

Definition price_monotone (su : Z) (m : CoffeeBuilder.radio) (co ch : Z) : bool :=
  zall su 5 (fun su' => (price_of su m co ch <=? price_of su' m co ch)%float)
  && zall co 4 (fun co' => (price_of su m co ch <=? price_of su m co' ch)%float)
  && zall ch 5 (fun ch' => (price_of su m co ch <=? price_of su m co ch')%float).

(** The clicks that lead to a given option state. *)
Definition clicks_to (su : Z) (m : CoffeeBuilder.radio) (co ch : Z)
  : list CoffeeBuilder.event :=
  repeat CoffeeBuilder.SugarPlus (Z.to_nat su)
  ++ [CoffeeBuilder.MilkChange m]
  ++ repeat CoffeeBuilder.CoffeePlus (Z.to_nat (co - 1))
  ++ repeat CoffeeBuilder.ChocolatePlus (Z.to_nat ch).

(** Products and carts of the test suite. *)
Definition test_product : Product.t :=
  Product.mk "1" "Test Product" 10 EmptyString EmptyString EmptyString.

Definition coffee_product : Product.t :=
  Product.mk "2" "Coffee" 15 EmptyString EmptyString EmptyString.

Definition size_large : value := VObj [("size", VStr "large")].

Definition one_item_world : CartPage.World :=
  CartPage.mkWorld [spread test_product 1 VNull] false None [] [] [].

Definition test_request : CartPage.Request :=
  CartPage.mkRequest "/api/orders" "POST"
    (CartPage.orderData [spread test_product 1 VNull]).

(** The same page once the order has been confirmed and sent. *)
Definition order_sent_world : CartPage.World :=
  CartPage.mkWorld [spread test_product 1 VNull] true None [test_request] [] [].

(** ** The shop page (Shop.js) *)

(** A product as the API lists it: the product and its stock flag. *)
Module Listing.
Record t : Type := mk {
  product : Product.t;
  inStock : bool
}.

Definition _id (p : t) : string := Product._id (product p).
Definition name (p : t) : string := Product.name (product p).
Definition category (p : t) : string := Product.category (product p).
End Listing.

(** How a [fetch] followed by [response.json()] ends: the call is
    rejected, or a response arrives whose body parses or does not. *)
Inductive fetched (A : Type) : Type :=
| Rejected (reason : exn)
| Responded (status : Z) (json : completion A).
Arguments Rejected {A} reason.
Arguments Responded {A} status json.

Definition fetched_ok {A} (o : fetched A) : bool :=
  match o with
  | Rejected _ => false
  | Responded status _ => (200 <=? status) && (status <=? 299)
  end.

(** [const response = await fetch(...)] *)
Definition await_response {A} (o : fetched A) : completion (Z * completion A) :=
  match o with
  | Rejected reason => Throw reason
  | Responded status json => Normal (status, json)
  end.

Definition quote : string := String (ascii_of_nat 34) EmptyString.

Module Shop.

Record World : Type := mkWorld {
  cart : Cart;
  products : list Listing.t;
  selectedCategory : string;
  categories : list string;
  addedToCart : option string;
  toast : option string;
  timers : list Z;
  console : list (string * exn)
}.

Definition initial (cart : Cart) : World :=
  mkWorld cart [] "All" ["All"] None None [] [].

Definition setCart (f : Cart -> completion Cart) (w : World) : completion World :=
  c ← f (cart w);
  mret (mkWorld c (products w) (selectedCategory w) (categories w) (addedToCart w)
          (toast w) (timers w) (console w)).

Definition setProducts (data : list Listing.t) (w : World) : World :=
  mkWorld (cart w) data (selectedCategory w) (categories w) (addedToCart w)
    (toast w) (timers w) (console w).

Definition setSelectedCategory (c : string) (w : World) : World :=
  mkWorld (cart w) (products w) c (categories w) (addedToCart w)
    (toast w) (timers w) (console w).

Definition setCategories (cs : list string) (w : World) : World :=
  mkWorld (cart w) (products w) (selectedCategory w) cs (addedToCart w)
    (toast w) (timers w) (console w).

Definition setAddedToCart (a : option string) (w : World) : World :=
  mkWorld (cart w) (products w) (selectedCategory w) (categories w) a
    (toast w) (timers w) (console w).

Definition setToast (t : option string) (w : World) : World :=
  mkWorld (cart w) (products w) (selectedCategory w) (categories w) (addedToCart w)
    t (timers w) (console w).

Definition setTimeout (delay : Z) (w : World) : World :=
  mkWorld (cart w) (products w) (selectedCategory w) (categories w) (addedToCart w)
    (toast w) (timers w ++ [delay]) (console w).

Definition console_error (msg : string) (e : exn) (w : World) : World :=
  mkWorld (cart w) (products w) (selectedCategory w) (categories w) (addedToCart w)
    (toast w) (timers w) (console w ++ [(msg, e)]).

(** [fetchProducts] from its first [await] on. *)
Definition fetchProducts_settle (o : fetched (list Listing.t)) (w : World)
  : completion World :=
  try_catch
    (response ← await_response o;
     data ← response.2;
     mret (setProducts data w))
    (fun error => mret (console_error "Error fetching products:" error w)).

(** [fetchCategories] from its first [await] on. *)
Definition fetchCategories_settle (o : fetched (list string)) (w : World)
  : completion World :=
  try_catch
    (response ← await_response o;
     data ← response.2;
     mret (setCategories ("All" :: data) w))
    (fun error => mret (console_error "Error fetching categories:" error w)).

Definition added_message (name : string) : string :=
  "Added " +:+ quote +:+ name +:+ quote +:+ " to cart!".

Definition handleAddToCart (product : Listing.t) (w : World) : completion World :=
  w ← setCart (addToCart_call (Listing.product product) None None) w;
  mret (setTimeout 1000
          (setToast (Some (added_message (Listing.name product)))
             (setAddedToCart (Some (Listing._id product)) w))).

Definition filteredProducts (w : World) : list Listing.t :=
  if String.eqb (selectedCategory w) "All" then products w
  else js_filter (fun p _ => String.eqb (Listing.category p) (selectedCategory w))
         (products w).

Inductive event : Type :=
| ClickCategory (i : nat)
| ClickAdd (i : nat)
| ProductsSettle (o : fetched (list Listing.t))
| CategoriesSettle (o : fetched (list string))
| TimerFires.

(** A click reaches a handler only through a button that is on screen
    and, for the product buttons, not disabled. *)
Definition step (e : event) (w : World) : completion World :=
  match e with
  | ClickCategory i =>
      match categories w !! i with
      | Some category => mret (setSelectedCategory category w)
      | None => mret w
      end
  | ClickAdd i =>
      match filteredProducts w !! i with
      | Some product => if Listing.inStock product then handleAddToCart product w else mret w
      | None => mret w
      end
  | ProductsSettle o => fetchProducts_settle o w
  | CategoriesSettle o => fetchCategories_settle o w
  | TimerFires =>
      match timers w with
      | _ :: rest =>
          mret (setAddedToCart None
                  (mkWorld (cart w) (products w) (selectedCategory w) (categories w)
                     (addedToCart w) (toast w) rest (console w)))
      | [] => mret w
      end
  end.

Fixpoint run (es : list event) (w : World) : completion World :=
  match es with
  | [] => mret w
  | e :: es => w ← step e w; run es w
  end.

End Shop.

(** ** The admin page (Admin.js) *)

Module Admin.

Record World : Type := mkWorld {
  products : list Listing.t;
  editingProduct : option Listing.t;
  toast : option string;
  loading : bool;
  console : list (string * exn)
}.

Definition initial : World := mkWorld [] None None true [].

Definition setProducts (data : list Listing.t) (w : World) : World :=
  mkWorld data (editingProduct w) (toast w) (loading w) (console w).

Definition setEditingProduct (e : option Listing.t) (w : World) : World :=
  mkWorld (products w) e (toast w) (loading w) (console w).

Definition setToast (t : option string) (w : World) : World :=
  mkWorld (products w) (editingProduct w) t (loading w) (console w).

Definition setLoading (b : bool) (w : World) : World :=
  mkWorld (products w) (editingProduct w) (toast w) b (console w).

Definition console_error (msg : string) (e : exn) (w : World) : World :=
  mkWorld (products w) (editingProduct w) (toast w) (loading w) (console w ++ [(msg, e)]).

Definition fetchProducts_settle (o : fetched (list Listing.t)) (w : World)
  : completion World :=
  try_catch
    (response ← await_response o;
     data ← response.2;
     mret (setLoading false (setProducts data w)))
    (fun error =>
       mret (setLoading false
               (setToast (Some "Failed to load products")
                  (console_error "Error fetching products:" error w)))).

Definition handleEdit (product : Listing.t) (w : World) : World :=
  setEditingProduct (Some product) w.

Definition handleCancel (w : World) : World := setEditingProduct None w.

(** What [handleSave] sends. *)
Record SaveRequest : Type := mkSave {
  url : string;
  method : string;
  price : float;
  inStock : bool
}.

Definition save_request (editing : Listing.t) : SaveRequest :=
  mkSave ("/api/products/" +:+ Listing._id editing) "PUT"
    (Product.price (Listing.product editing)) (Listing.inStock editing).

Definition updated_message (name : string) : string :=
  "Updated " +:+ quote +:+ name +:+ quote +:+ " successfully!".

(** [products.map(p => p._id === updatedProduct._id ? updatedProduct : p)] *)
Definition replace_product (updatedProduct : Listing.t) (products : list Listing.t)
  : list Listing.t :=
  map (fun p => if String.eqb (Listing._id p) (Listing._id updatedProduct)
                then updatedProduct else p)
    products.

(** [handleSave] once its call has settled; [products] and
    [editingProduct] are those of the render in which Save was pressed. *)
Definition handleSave_settle (products : list Listing.t) (editingProduct : Listing.t)
    (o : fetched Listing.t) (w : World) : completion World :=
  try_catch
    (response ← await_response o;
     if fetched_ok o then
       updatedProduct ← response.2;
       mret (setEditingProduct None
               (setToast (Some (updated_message (Listing.name editingProduct)))
                  (setProducts (replace_product updatedProduct products) w)))
     else
       mret (setToast (Some "Failed to update product") w))
    (fun error =>
       mret (setToast (Some "Error updating product")
               (console_error "Error updating product:" error w))).

End Admin.

(** ** More vocabulary *)


(** No entry has a quantity [q] with [q <= 0]. *)
Definition positive_quantities (cart : Cart) : Prop :=
  Forall (fun item => (CartItem.quantity item <=? 0)%float = false) cart.

(** A settled order call that did not succeed. *)
Definition failed (o : CartPage.outcome) : Prop :=
  match o with
  | CartPage.Resolves response => CartPage.ok response = false
  | CartPage.Rejects _ => True
  end.

(** The option record the builder attaches to a coffee. *)
Definition coffeeConfig (s : CoffeeBuilder.state) : value :=
  VObj [("sugar", VNum (CoffeeBuilder.sugar s)); ("milk", VStr (CoffeeBuilder.milk s));
        ("coffee", VNum (CoffeeBuilder.coffee s));
        ("chocolate", VNum (CoffeeBuilder.chocolate s))].

(** The cheapest and the dearest coffee. *)
Definition price_bounds (su : Z) (m : CoffeeBuilder.radio) (co ch : Z) : bool :=
  let p := price_of su m co ch in
  (3.5 <=? p)%float && (p <=? 10.25)%float
  && Bool.eqb (p =? 3.5)%float
       ((su =? 0) && (co =? 1) && (ch =? 0)
        && match m with CoffeeBuilder.RadioNone => true | _ => false end)
  && Bool.eqb (p =? 10.25)%float
       ((su =? 5) && (co =? 4) && (ch =? 5)
        && match m with CoffeeBuilder.RadioOat => true | _ => false end).

(** * Properties *)

(** ** Arrays *)

Section arrays.
Context {A : Type}.
Implicit Types (l : list A) (i index : Z).

Lemma js_index_in_range l index :
  0 <= index < Z.of_nat (length l) -> is_Some (js_index l index).
Proof.
  intros [Hlo Hhi]. unfold js_index.
  destruct (Z.leb_spec 0 index); [|lia].
  apply lookup_lt_is_Some. lia.
Qed.

Lemma js_index_out_of_range l index :
  index < 0 \/ Z.of_nat (length l) <= index -> js_index l index = None.
Proof.
  intros Hout. unfold js_index.
  destruct (Z.leb_spec 0 index); [|done].
  apply lookup_ge_None. lia.
Qed.

(** Filtering out one index that lies before the part still to scan, or
    after its end, keeps everything. *)
Lemma filter_from_other l i index :
  index < i \/ i + Z.of_nat (length l) <= index ->
  filter_from (fun _ j => negb (j =? index)) l i = l.
Proof.
  revert i. induction l as [|x l IH]; intros i Hout; simpl; [done|].
  simpl in Hout.
  destruct (Z.eqb_spec i index) as [->|_]; [lia|]. simpl.
  f_equal. apply IH. lia.
Qed.

Lemma filter_from_delete l i index :
  i <= index < i + Z.of_nat (length l) ->
  filter_from (fun _ j => negb (j =? index)) l i = delete (Z.to_nat (index - i)) l.
Proof.
  revert i. induction l as [|x l IH]; intros i Hin; simpl in *; [lia|].
  destruct (Z.eqb_spec i index) as [->|Hne]; simpl.
  - rewrite Z.sub_diag. simpl. apply filter_from_other. lia.
  - rewrite IH by lia.
    replace (Z.to_nat (index - i)) with (S (Z.to_nat (index - (i + 1)))) by lia.
    done.
Qed.

Lemma js_filter_remove_in_range l index :
  0 <= index < Z.of_nat (length l) ->
  js_filter (fun _ j => negb (j =? index)) l = delete (Z.to_nat index) l.
Proof.
  intros Hin. unfold js_filter. rewrite filter_from_delete by lia.
  by rewrite Z.sub_0_r.
Qed.

Lemma js_filter_remove_out_of_range l index :
  index < 0 \/ Z.of_nat (length l) <= index ->
  js_filter (fun _ j => negb (j =? index)) l = l.
Proof. intros Hout. apply filter_from_other. lia. Qed.

(** [findIndex] stops at the first element that passes the test. *)
Lemma findIndex_from_first (p : A -> bool) l1 x l2 i :
  Forall (fun y => p y = false) l1 -> p x = true ->
  findIndex_from p (l1 ++ x :: l2) i = i + Z.of_nat (length l1).
Proof.
  intros Hl1 Hx. revert i. induction Hl1 as [|y l1 Hy _ IH]; intros i; simpl.
  - rewrite Hx. lia.
  - rewrite Hy, IH. lia.
Qed.

Lemma findIndex_from_none (p : A -> bool) l i :
  Forall (fun y => p y = false) l -> findIndex_from p l i = -1.
Proof.
  intros Hl. revert i. induction Hl as [|y l Hy _ IH]; intros i; simpl; [done|].
  by rewrite Hy, IH.
Qed.

(** Every array splits at the first element passing the test, if any. *)
Lemma first_split (p : A -> bool) l :
  Forall (fun y => p y = false) l \/
  exists l1 x l2, l = l1 ++ x :: l2 /\ Forall (fun y => p y = false) l1 /\ p x = true.
Proof.
  induction l as [|y l IH]; [by left|].
  destruct (p y) eqn:Hy.
  - right. exists [], y, l. by repeat split.
  - destruct IH as [Hall|(l1 & x & l2 & -> & Hl1 & Hx)].
    + left. by constructor.
    + right. exists (y :: l1), x, l2. repeat split; [|done]. by constructor.
Qed.
End arrays.

(** ** Comparisons of numbers *)

Lemma float_pos_not_le (q : float) : (0 <? q)%float = true -> (q <=? 0)%float = false.
Proof.
  rewrite ltb_spec, leb_spec. unfold SFltb, SFleb.
  replace (Prim2SF 0) with (S754_zero false) by reflexivity.
  destruct (Prim2SF q) as [s|s| |s m e]; simpl; try congruence;
    destruct s; simpl; congruence.
Qed.

(** ** The two branches of [addToCart] *)

Lemma addToCart_merge product q c (l1 l2 : Cart) item :
  ToBoolean c = false ->
  Forall (fun y => mergeable product y = false) l1 ->
  mergeable product item = true ->
  addToCart product q c (l1 ++ item :: l2)
  = Normal (l1 ++ CartItem.set_quantity (CartItem.quantity item + q)%float item :: l2).
Proof.
  intros Hc Hl1 Hitem. unfold addToCart, findIndex.
  rewrite (findIndex_from_first _ _ _ _ _ Hl1 Hitem), Hc. simpl.
  destruct (Z.gtb_spec (0 + Z.of_nat (length l1)) (-1)); [|lia]. simpl.
  unfold js_index. destruct (Z.leb_spec 0 (0 + Z.of_nat (length l1))); [|lia].
  replace (Z.to_nat (0 + Z.of_nat (length l1))) with (length l1) by lia.
  rewrite list_lookup_middle by done.
  rewrite insert_app_r_alt by done.
  by rewrite Nat.sub_diag.
Qed.

Lemma addToCart_append_custom product q c (cart : Cart) :
  ToBoolean c = true ->
  addToCart product q c cart = Normal (cart ++ [spread product q c]).
Proof.
  intros Hc. unfold addToCart. rewrite Hc. simpl. by rewrite andb_false_r.
Qed.

Lemma addToCart_append_new product q c (cart : Cart) :
  Forall (fun y => mergeable product y = false) cart ->
  addToCart product q c cart = Normal (cart ++ [spread product q c]).
Proof.
  intros Hnone. unfold addToCart, findIndex.
  by rewrite (findIndex_from_none _ _ _ Hnone).
Qed.


(** ** Removing and updating by index *)

(** C7. For every cart, every index and every new quantity [q <= 0],
    [updateQuantity(index, q)] yields exactly the cart that
    [removeItem(index)] yields; for an index in range that cart is one
    entry shorter and is the old cart without the entry at [index]. *)
Theorem updateQuantity_nonpositive_removes (cart : Cart) (index : Z) (q : float) :
  (q <=? 0)%float = true ->
  updateQuantity index q cart = removeFromCart index cart /\
  (0 <= index < Z.of_nat (length cart) ->
   exists cart',
     updateQuantity index q cart = Normal cart' /\
     S (length cart') = length cart /\
     cart' = take (Z.to_nat index) cart ++ drop (S (Z.to_nat index)) cart).
Proof.
  intros Hq. unfold updateQuantity. rewrite Hq. split; [done|].
  intros Hin. unfold removeFromCart.
  rewrite js_filter_remove_in_range by done.
  eexists. split; [done|]. split.
  - rewrite length_delete; [lia|]. apply lookup_lt_is_Some. lia.
  - apply delete_take_drop.
Qed.

Lemma updateQuantity_nonpositive_removes_witness :
  let cart := [spread test_product 1 VNull; spread coffee_product 1 size_large] in
  updateQuantity 0 0 cart = removeFromCart 0 cart /\
  updateQuantity 0 0 cart = Normal [spread coffee_product 1 size_large].
Proof.
  intros cart.
  destruct (updateQuantity_nonpositive_removes cart 0 0%float) as [Heq _];
    [reflexivity|].
  split; [exact Heq|reflexivity].
Defined.

(** C10. For every cart and every index outside [0, length), a call
    [updateQuantity(index, q)] with [q > 0] raises a TypeError (it writes
    the quantity of an entry that is not there), while [removeItem] at
    the same index leaves the cart as it is and raises nothing. *)
Theorem updateQuantity_out_of_range_throws (cart : Cart) (index : Z) (q : float) :
  index < 0 \/ Z.of_nat (length cart) <= index ->
  (0 <? q)%float = true ->
  updateQuantity index q cart = Throw TypeError /\
  removeFromCart index cart = Normal cart.
Proof.
  intros Hout Hq. split.
  - unfold updateQuantity. rewrite (float_pos_not_le q Hq).
    by rewrite js_index_out_of_range.
  - unfold removeFromCart. by rewrite js_filter_remove_out_of_range.
Qed.

Lemma updateQuantity_out_of_range_throws_witness :
  updateQuantity 1 3 [spread test_product 1 VNull] = Throw TypeError /\
  removeFromCart 1 [spread test_product 1 VNull] = Normal [spread test_product 1 VNull].
Proof.
  apply (updateQuantity_out_of_range_throws [spread test_product 1 VNull] 1 3%float).
  - right. simpl. lia.
  - reflexivity.
Defined.

(** ** Adding with a customization *)

(** C8. Every [addItem] call that carries a non-empty customization
    appends a new entry: the cart grows by exactly one, the entries
    already there stay as they were, whatever customizations they hold. *)
Theorem addToCart_customized_appends product q customization (cart : Cart) :
  nonempty_object customization ->
  addToCart product q customization cart
  = Normal (cart ++ [spread product q customization]) /\
  length (cart ++ [spread product q customization]) = S (length cart).
Proof.
  intros Hc. split.
  - apply addToCart_append_custom. by destruct customization as [| | | | | |[|? ?]].
  - rewrite length_app. simpl. lia.
Qed.

Lemma addToCart_customized_appends_witness :
  addToCart coffee_product 1 size_large [spread coffee_product 1 size_large]
  = Normal [spread coffee_product 1 size_large; spread coffee_product 1 size_large].
Proof.
  apply (addToCart_customized_appends coffee_product 1%float size_large
           [spread coffee_product 1 size_large]).
  exact I.
Defined.

(** ** Entries without a customization *)

Lemma mergeable_spec product item :
  mergeable product item = true <->
  CartItem._id item = Product._id product /\ plain item = true.
Proof.
  unfold mergeable, plain. rewrite andb_true_iff, String.eqb_eq. tauto.
Qed.

Lemma mergeable_same_id product product' item :
  Product._id product = Product._id product' ->
  mergeable product item = mergeable product' item.
Proof. unfold mergeable. by intros ->. Qed.

Lemma plain_ids_app (l1 l2 : Cart) : plain_ids (l1 ++ l2) = plain_ids l1 ++ plain_ids l2.
Proof. unfold plain_ids. by rewrite filter_app, fmap_app. Qed.

Lemma plain_ids_cons item (l : Cart) :
  plain_ids (item :: l)
  = if plain item then CartItem._id item :: plain_ids l else plain_ids l.
Proof.
  unfold plain_ids. rewrite filter_cons.
  destruct (plain item); by case_decide.
Qed.

Lemma plain_ids_set_quantity (l1 l2 : Cart) item q :
  plain_ids (l1 ++ CartItem.set_quantity q item :: l2) = plain_ids (l1 ++ item :: l2).
Proof. by rewrite !plain_ids_app, !plain_ids_cons. Qed.

Lemma not_mergeable_not_plain_id product (cart : Cart) :
  Forall (fun y => mergeable product y = false) cart ->
  Product._id product ∉ plain_ids cart.
Proof.
  intros Hnone (x & Hid & [Hplain Hx]%list_elem_of_filter)%list_elem_of_fmap.
  rewrite Forall_forall in Hnone.
  assert (mergeable product x = true) as Hm.
  { apply mergeable_spec. split; [done|]. by apply Is_true_eq_true. }
  by rewrite (Hnone x Hx) in Hm.
Qed.

Lemma filter_sublist_mono {A} (P : A -> Prop) `{!forall x, Decision (P x)} (l1 l2 : list A) :
  sublist l1 l2 -> sublist (filter P l1) (filter P l2).
Proof.
  induction 1 as [|x l1 l2 _ IH|x l1 l2 _ IH]; [done| |];
    rewrite ?filter_cons; repeat case_decide;
    auto using sublist_skip, sublist_cons.
Qed.

Lemma no_duplicate_plain_sublist (cart cart' : Cart) :
  sublist cart' cart -> no_duplicate_plain cart -> no_duplicate_plain cart'.
Proof.
  intros Hsub Hnd. unfold no_duplicate_plain, plain_ids in *.
  eapply sublist_NoDup; [exact Hnd|].
  by apply fmap_sublist, filter_sublist_mono.
Qed.

(** Every mutation of the store keeps the cart free of duplicates. *)
Lemma addToCart_no_duplicate product q c (cart cart' : Cart) :
  no_duplicate_plain cart ->
  addToCart product q c cart = Normal cart' -> no_duplicate_plain cart'.
Proof.
  intros Hnd. unfold no_duplicate_plain in *.
  destruct (ToBoolean c) eqn:Hc.
  - rewrite addToCart_append_custom by done. intros [= <-].
    rewrite plain_ids_app, plain_ids_cons. unfold plain, spread. simpl.
    rewrite Hc. simpl. by rewrite app_nil_r.
  - destruct (first_split (mergeable product) cart)
      as [Hnone|(l1 & x & l2 & -> & Hl1 & Hx)].
    + rewrite addToCart_append_new by done. intros [= <-].
      rewrite plain_ids_app, plain_ids_cons. unfold plain, spread. simpl.
      rewrite Hc. simpl. apply NoDup_app. split; [done|]. split.
      * intros id Hid ->%list_elem_of_singleton.
        by apply (not_mergeable_not_plain_id product cart).
      * apply NoDup_singleton.
    + rewrite addToCart_merge by done. intros [= <-].
      by rewrite plain_ids_set_quantity.
Qed.

Lemma removeFromCart_no_duplicate index (cart cart' : Cart) :
  no_duplicate_plain cart ->
  removeFromCart index cart = Normal cart' -> no_duplicate_plain cart'.
Proof.
  intros Hnd [= <-].
  destruct (decide (0 <= index < Z.of_nat (length cart))) as [Hin|Hout].
  - rewrite js_filter_remove_in_range by done.
    eapply no_duplicate_plain_sublist; [apply sublist_delete|done].
  - rewrite js_filter_remove_out_of_range by lia. done.
Qed.

Lemma updateQuantity_no_duplicate index q (cart cart' : Cart) :
  no_duplicate_plain cart ->
  updateQuantity index q cart = Normal cart' -> no_duplicate_plain cart'.
Proof.
  intros Hnd. unfold updateQuantity.
  destruct (q <=? 0)%float; [by apply removeFromCart_no_duplicate|].
  unfold js_index. destruct (0 <=? index); [|done].
  destruct (cart !! Z.to_nat index) as [item|] eqn:Hitem; [|done].
  intros [= <-]. unfold no_duplicate_plain in *.
  rewrite <- (take_drop_middle cart _ _ Hitem) in Hnd |- *.
  rewrite insert_app_r_alt by (rewrite length_take; lia).
  replace (Z.to_nat index - length (take (Z.to_nat index) cart))%nat with 0%nat
    by (apply lookup_lt_Some in Hitem; rewrite length_take; lia).
  simpl. by rewrite plain_ids_set_quantity.
Qed.

Lemma apply_no_duplicate o (cart cart' : Cart) :
  no_duplicate_plain cart -> apply o cart = Normal cart' -> no_duplicate_plain cart'.
Proof.
  destruct o; simpl.
  - apply addToCart_no_duplicate.
  - apply removeFromCart_no_duplicate.
  - apply updateQuantity_no_duplicate.
  - intros _ [= <-]. apply NoDup_nil_2.
Qed.

Lemma apply_all_no_duplicate os (cart cart' : Cart) :
  no_duplicate_plain cart -> apply_all os cart = Normal cart' -> no_duplicate_plain cart'.
Proof.
  revert cart. induction os as [|o os IH]; intros cart Hnd; simpl.
  - by intros [= <-].
  - destruct (apply o cart) as [cart1|e] eqn:Ho; simpl; [|done].
    apply IH. by eapply apply_no_duplicate.
Qed.

Lemma not_plain_entry_not_mergeable product (l : Cart) :
  Forall (fun y => ~ plain_entry_of (Product._id product) y) l ->
  Forall (fun y => mergeable product y = false) l.
Proof.
  intros Hl. eapply Forall_impl; [exact Hl|]. intros y Hy. simpl in *.
  destruct (mergeable product y) eqn:Hm; [|done].
  by apply mergeable_spec in Hm.
Qed.

Lemma plain_entry_mergeable product item :
  plain_entry_of (Product._id product) item -> mergeable product item = true.
Proof. apply mergeable_spec. Qed.

Lemma not_plain_id_not_plain_entry id (l : Cart) :
  id ∉ plain_ids l -> Forall (fun y => ~ plain_entry_of id y) l.
Proof.
  intros Hid. apply Forall_forall. intros y Hy [Hy_id Hy_plain]. apply Hid.
  apply list_elem_of_fmap. exists y. split; [done|].
  apply list_elem_of_filter. split; [by apply Is_true_eq_left|done].
Qed.

Lemma plain_entries_for_none id (l : Cart) :
  Forall (fun y => ~ plain_entry_of id y) l -> plain_entries_for id l = [].
Proof.
  unfold plain_entries_for, entries_for.
  induction 1 as [|y l Hy _ IH]; [done|].
  rewrite filter_cons. case_decide as Hid; [|done].
  rewrite filter_cons. case_decide as Hplain; [|done].
  destruct Hy. split; [done|]. by apply Is_true_eq_true.
Qed.

(** In a cart without duplicates an uncustomized entry is the only one
    for its product. *)
Lemma plain_entries_for_unique id (l1 l2 : Cart) item :
  no_duplicate_plain (l1 ++ item :: l2) -> plain_entry_of id item ->
  Forall (fun y => ~ plain_entry_of id y) l1 /\
  plain_entries_for id (l1 ++ item :: l2) = [item].
Proof.
  unfold no_duplicate_plain. rewrite plain_ids_app, plain_ids_cons.
  intros Hnd [Hid Hplain]. rewrite Hplain, Hid in Hnd.
  apply NoDup_app in Hnd as (_ & Hl1 & [Hl2 _]%NoDup_cons).
  assert (Forall (fun y => ~ plain_entry_of id y) l1) as Hnone1.
  { apply not_plain_id_not_plain_entry. intros Hin.
    apply (Hl1 id Hin). by left. }
  split; [done|].
  pose proof (plain_entries_for_none id l1 Hnone1) as E1.
  pose proof (plain_entries_for_none id l2 (not_plain_id_not_plain_entry _ _ Hl2)) as E2.
  unfold plain_entries_for, entries_for in *.
  rewrite filter_app, filter_cons. case_decide; [|done].
  rewrite filter_app, filter_cons. case_decide as Hp; [|by rewrite Hplain in Hp].
  by rewrite E1, E2.
Qed.

(** An array splits in one way only at the first element with a given
    property. *)
Lemma split_at_first_unique {A} (P : A -> Prop) (l1 l2 l1' l2' : list A) x x' :
  l1 ++ x :: l2 = l1' ++ x' :: l2' ->
  Forall (fun y => ~ P y) l1 -> P x -> Forall (fun y => ~ P y) l1' -> P x' ->
  l1 = l1' /\ x = x' /\ l2 = l2'.
Proof.
  intros Heq Hl1 Hx Hl1' Hx'. revert l1' Heq Hl1'.
  induction Hl1 as [|y l1 Hy _ IH]; intros [|y' l1'] Heq Hl1'; simpl in *.
  - by injection Heq as <- <-.
  - injection Heq as <- _. by apply Forall_cons in Hl1' as [[] _].
  - injection Heq as -> _. done.
  - injection Heq as <- Heq. apply Forall_cons in Hl1' as [_ Hl1'].
    by destruct (IH l1' Heq Hl1') as (-> & -> & ->).
Qed.

(** ** Sequences of additions without customization *)

Lemma add_each_onto_entry id calls (l1 l2 : Cart) item :
  Forall (plain_call_for id) calls ->
  Forall (fun y => ~ plain_entry_of id y) l1 ->
  plain_entry_of id item ->
  apply_all (add_each calls) (l1 ++ item :: l2)
  = Normal (l1 ++ CartItem.set_quantity
                    (add_up (CartItem.quantity item) (requested calls)) item :: l2).
Proof.
  intros Hcalls Hl1. revert item.
  induction Hcalls as [|[[p q] c] calls [Hp Hc] _ IH]; intros item Hitem; simpl in *.
  - by destruct item.
  - subst id.
    rewrite addToCart_merge;
      [|done|by apply not_plain_entry_not_mergeable|by apply plain_entry_mergeable].
    simpl. by rewrite IH.
Qed.

Lemma add_each_new_entry id product q c calls (cart : Cart) :
  Forall (plain_call_for id) ((product, q, c) :: calls) ->
  Forall (fun y => ~ plain_entry_of id y) cart ->
  apply_all (add_each ((product, q, c) :: calls)) cart
  = Normal (cart ++ [spread product (add_up q (requested calls)) c]).
Proof.
  intros [[Hp Hc] Hcalls]%Forall_cons Hnone. simpl in *. subst id.
  rewrite addToCart_append_new by by apply not_plain_entry_not_mergeable.
  simpl. rewrite (add_each_onto_entry (Product._id product)); [done..|].
  split; [done|]. unfold plain. simpl. by rewrite Hc.
Qed.

(** C1 (as stated, refuted). Starting from a cart that already holds two
    units of the product, one call requesting one more leaves a single
    entry whose quantity is three, not the sum of the requested
    quantities; and starting from a cart holding a customized entry for
    the product, the call leaves two entries for that product id. *)
Lemma plain_addition_onto_prior_cart :
  (exists item,
     apply_all (add_each [(test_product, 1%float, VNull)]) [spread test_product 2 VNull]
     = Normal [item] /\
     CartItem.quantity item = 3%float /\
     CartItem.quantity item <> sigma (requested [(test_product, 1%float, VNull)])) /\
  (exists cart',
     apply_all (add_each [(coffee_product, 1%float, VNull)])
       [spread coffee_product 1 size_large] = Normal cart' /\
     length (entries_for "2" cart') = 2%nat).
Proof.
  split.
  - exists (spread test_product 3 VNull). repeat split.
    intros H. apply (f_equal (fun x => PrimFloat.eqb x 3)) in H.
    vm_compute in H. discriminate.
  - eexists. split; [reflexivity|]. reflexivity.
Qed.

(** C1 (amended). No state reachable from the empty cart, and no state
    reachable from a cart without duplicates, holds two entries with the
    same product id that both lack a customization.  For every non-empty
    sequence of [addItem] calls that pass no customization and share a
    product id, starting from such a cart, the cart afterwards holds
    exactly one uncustomized entry for that id: a new entry, appended,
    whose quantity is the sum of the requested quantities, if there was
    none before (so from the empty cart it is the only entry), and
    otherwise the entry that was there, its quantity raised by that
    sum. *)
Theorem plain_additions_accumulate :
  (forall cart : Cart, reachable_cart cart -> no_duplicate_plain cart) /\
  (forall os (cart cart' : Cart),
      no_duplicate_plain cart -> apply_all os cart = Normal cart' ->
      no_duplicate_plain cart') /\
  (forall id product q c calls (cart : Cart),
      Forall (plain_call_for id) ((product, q, c) :: calls) ->
      no_duplicate_plain cart ->
      exists cart' item,
        apply_all (add_each ((product, q, c) :: calls)) cart = Normal cart' /\
        plain_entries_for id cart' = [item] /\
        (Forall (fun y => ~ plain_entry_of id y) cart ->
         item = spread product (add_up q (requested calls)) c /\
         cart' = cart ++ [item]) /\
        (forall l1 old l2,
            cart = l1 ++ old :: l2 -> plain_entry_of id old ->
            item = CartItem.set_quantity
                     (add_up (CartItem.quantity old) (q :: requested calls)) old /\
            cart' = l1 ++ item :: l2)).
Proof.
  split; [|split].
  - intros cart [os Hos]. eapply apply_all_no_duplicate; [|exact Hos].
    apply NoDup_nil_2.
  - apply apply_all_no_duplicate.
  - intros id product q c calls cart Hcalls Hnd.
    pose proof Hcalls as [[Hp Hc] _]%Forall_cons. simpl in Hp, Hc.
    destruct (first_split (mergeable product) cart)
      as [Hnone|(l1 & old & l2 & -> & Hl1 & Hold)].
    + assert (Forall (fun y => ~ plain_entry_of id y) cart) as Hnone'.
      { eapply Forall_impl; [exact Hnone|]. intros y Hy Hy'. simpl in Hy.
        subst id. by rewrite (plain_entry_mergeable _ _ Hy') in Hy. }
      pose proof (add_each_new_entry id product q c calls cart Hcalls Hnone') as Hrun.
      eexists _, _. split; [exact Hrun|].
      assert (plain_entry_of id (spread product (add_up q (requested calls)) c)) as Hnew.
      { split; [done|]. unfold plain. simpl. by rewrite Hc. }
      split; [|split].
      * eapply plain_entries_for_unique; [|exact Hnew].
        eapply apply_all_no_duplicate; [exact Hnd|exact Hrun].
      * done.
      * intros l1 old l2 -> Hold. rewrite Forall_forall in Hnone'.
        destruct (Hnone' old); [|done]. apply elem_of_app. right. by left.
    + assert (plain_entry_of id old) as Hold'.
      { subst id. by apply mergeable_spec. }
      destruct (plain_entries_for_unique id l1 l2 old Hnd Hold') as [Hnone1 _].
      pose proof (add_each_onto_entry id _ l1 l2 old Hcalls Hnone1 Hold') as Hrun.
      eexists _, _. split; [exact Hrun|].
      split; [|split].
      * eapply plain_entries_for_unique.
        -- eapply apply_all_no_duplicate; [exact Hnd|exact Hrun].
        -- destruct Hold'. done.
      * intros Hnone. rewrite Forall_forall in Hnone.
        destruct (Hnone old); [|done]. apply elem_of_app. right. by left.
      * intros l1' old' l2' Heq Hold''.
        assert (l1' = l1 /\ old' = old /\ l2' = l2) as (-> & -> & ->); [|done].
        destruct (plain_entries_for_unique id l1' l2' old') as [Hnone1' _];
          [by rewrite <- Heq|done|].
        symmetry in Heq.
        by destruct (split_at_first_unique (plain_entry_of id) _ _ _ _ _ _ Heq).
Qed.

Lemma plain_additions_accumulate_witness :
  apply_all (add_each [(test_product, 1%float, VNull); (test_product, 1%float, VNull)]) []
  = Normal [spread test_product 2 VNull].
Proof.
  destruct plain_additions_accumulate as (_ & _ & H).
  destruct (H "1" test_product 1%float VNull [(test_product, 1%float, VNull)] [])
    as (cart' & item & Hrun & _ & Hnew & _).
  - repeat constructor.
  - apply NoDup_nil_2.
  - destruct Hnew as [-> ->]; [constructor|]. exact Hrun.
Defined.

(** C6 (as stated, refuted). The cart holds an entry for the product
    with no customization; a call for the same product whose
    customization is the empty object appends a second entry and leaves
    the quantity of the first as it was. *)
Lemma empty_object_customization_appends :
  plain_entry_of "1" (spread test_product 1 VNull) /\
  addToCart test_product 1 (VObj []) [spread test_product 1 VNull]
  = Normal [spread test_product 1 VNull; spread test_product 1 (VObj [])].
Proof. by repeat split. Qed.

(** C6 (amended). For every [addItem(product, quantity, customization)]
    call whose customization is [null], [undefined] or another falsy
    value, if the cart holds an entry with the same product id and no
    customization, the call adds the given amount to the quantity of the
    first such entry and appends nothing.  An object, even one with no
    entries, is a customization: the call appends a new entry. *)
Theorem addToCart_without_customization_increments product q (cart : Cart) :
  (forall customization,
      ToBoolean customization = false ->
      (exists item, item ∈ cart /\ plain_entry_of (Product._id product) item) ->
      exists l1 item l2,
        cart = l1 ++ item :: l2 /\
        Forall (fun y => ~ plain_entry_of (Product._id product) y) l1 /\
        plain_entry_of (Product._id product) item /\
        addToCart product q customization cart
        = Normal (l1 ++ CartItem.set_quantity (CartItem.quantity item + q)%float item
                     :: l2)) /\
  (forall props,
      addToCart product q (VObj props) cart
      = Normal (cart ++ [spread product q (VObj props)])).
Proof.
  split.
  - intros c Hc (item & Hin & Hitem).
    destruct (first_split (mergeable product) cart)
      as [Hnone|(l1 & x & l2 & -> & Hl1 & Hx)].
    + rewrite Forall_forall in Hnone. specialize (Hnone item Hin).
      by rewrite (plain_entry_mergeable _ _ Hitem) in Hnone.
    + exists l1, x, l2. split; [done|]. split; [|split].
      * eapply Forall_impl; [exact Hl1|]. intros y Hy Hy'. simpl in Hy.
        by rewrite (plain_entry_mergeable _ _ Hy') in Hy.
      * by apply mergeable_spec.
      * by apply addToCart_merge.
  - intros props. by apply addToCart_append_custom.
Qed.

Lemma addToCart_without_customization_increments_witness :
  addToCart test_product 1 VNull [spread test_product 1 VNull]
  = Normal [spread test_product 2 VNull].
Proof.
  destruct (addToCart_without_customization_increments test_product 1%float
              [spread test_product 1 VNull]) as [H _].
  destruct (H VNull) as (l1 & item & l2 & Heq & _ & _ & Hadd).
  - reflexivity.
  - exists (spread test_product 1 VNull). split; [by left|]. by split.
  - rewrite Hadd. destruct l1 as [|? [|? ?]]; [|done..].
    simpl in Heq. by injection Heq as <- <-.
Defined.

(** ** Totals *)

Lemma reduce_sigma {A} (f : A -> float) (l : list A) :
  reduce (fun acc x => (acc + f x)%float) 0%float l = sigma (map f l).
Proof.
  unfold reduce, sigma. induction l as [|x l IH] using rev_ind; [done|].
  rewrite fold_left_app, map_app, rev_app_distr. simpl. by rewrite IH.
Qed.

(** C2. For every cart, and so for the cart in any state that is reached
    by interleaved [addItem], [updateQuantity] and [removeItem] calls,
    [total()] is #&Sigma;#(price x quantity) and [count()] is
    #&Sigma;#(quantity) over the entries, in cart order and in the
    arithmetic of the program. *)
Theorem total_and_count_are_sums :
  (forall cart : Cart,
      getCartTotal cart
      = sigma (map (fun item => (CartItem.price item * CartItem.quantity item)%float) cart)
      /\ getCartCount cart = sigma (map CartItem.quantity cart)) /\
  (forall os (cart0 : Cart),
      match apply_all os cart0 with
      | Normal cart =>
          getCartTotal cart
          = sigma (map (fun item => (CartItem.price item * CartItem.quantity item)%float)
                     cart)
          /\ getCartCount cart = sigma (map CartItem.quantity cart)
      | Throw _ => True
      end).
Proof.
  assert (forall cart : Cart,
             getCartTotal cart
             = sigma (map (fun item =>
                             (CartItem.price item * CartItem.quantity item)%float) cart)
             /\ getCartCount cart = sigma (map CartItem.quantity cart)) as Hall.
  { intros cart. split; apply reduce_sigma. }
  split; [exact Hall|].
  intros os cart0. destruct (apply_all os cart0); [apply Hall|exact I].
Qed.

(** The totals the test suite expects. *)
Example total_after_two_additions :
  match apply_all [AddItem test_product 1 VNull; AddItem test_product 1 VNull] [] with
  | Normal cart => (getCartCount cart, getCartTotal cart) = (2%float, 20%float)
  | Throw _ => False
  end.
Proof. reflexivity. Qed.

Example total_after_update :
  match apply_all [AddItem test_product 1 VNull; UpdateQuantity 0 3] [] with
  | Normal cart => (getCartCount cart, getCartTotal cart) = (3%float, 30%float)
  | Throw _ => False
  end.
Proof. reflexivity. Qed.

Example total_with_custom_coffee :
  match apply_all [AddItem test_product 1 VNull; AddItem coffee_product 1 size_large] []
  with
  | Normal cart => (getCartCount cart, getCartTotal cart) = (2%float, 25%float)
  | Throw _ => False
  end.
Proof. reflexivity. Qed.

(** ** The coffee builder *)

Lemma zall_spec lo hi (P : Z -> bool) :
  zall lo hi P = true -> forall x, lo <= x <= hi -> P x = true.
Proof.
  unfold zall, zrange. rewrite List.forallb_forall. intros Hall x Hx.
  apply Hall, in_map_iff. exists (Z.to_nat (x - lo)). split; [lia|].
  apply in_seq. lia.
Qed.

Lemma rall_spec (P : CoffeeBuilder.radio -> bool) :
  rall P = true -> forall m, P m = true.
Proof.
  unfold rall. simpl. rewrite !andb_true_iff. intros (? & ? & ? & _) []; done.
Qed.

Lemma all_states_spec (P : Z -> CoffeeBuilder.radio -> Z -> Z -> bool) :
  all_states P = true ->
  forall su m co ch, in_ranges su co ch -> P su m co ch = true.
Proof.
  intros Hall su m co ch (Hsu & Hco & Hch). unfold all_states in Hall.
  pose proof (zall_spec _ _ _ Hall su Hsu) as H1.
  pose proof (rall_spec _ H1 m) as H2.
  pose proof (zall_spec _ _ _ H2 co Hco) as H3.
  exact (zall_spec _ _ _ H3 ch Hch).
Qed.

Lemma all_prices_exact : all_states price_exact = true.
Proof. vm_compute. reflexivity. Qed.

Lemma all_prices_monotone : all_states price_monotone = true.
Proof. vm_compute. reflexivity. Qed.

Lemma between_0_5 x : 0 <= x <= 5 -> x = 0 \/ x = 1 \/ x = 2 \/ x = 3 \/ x = 4 \/ x = 5.
Proof. lia. Qed.

Lemma between_1_4 x : 1 <= x <= 4 -> x = 1 \/ x = 2 \/ x = 3 \/ x = 4.
Proof. lia. Qed.

Ltac each_level H :=
  first [ apply between_0_5 in H | apply between_1_4 in H ];
  repeat (destruct H as [->|H]); try subst.

(** The [-] and [+] buttons move within the allowed levels. *)
Lemma level_up_to_5 n :
  0 <= n <= 5 ->
  CoffeeBuilder.Math_min 5 (CoffeeBuilder.level n + 1) = CoffeeBuilder.level (Z.min 5 (n + 1)).
Proof. intros H. each_level H; reflexivity. Qed.

Lemma level_down_to_0 n :
  0 <= n <= 5 ->
  CoffeeBuilder.Math_max 0 (CoffeeBuilder.level n - 1) = CoffeeBuilder.level (Z.max 0 (n - 1)).
Proof. intros H. each_level H; reflexivity. Qed.

Lemma level_up_to_4 n :
  1 <= n <= 4 ->
  CoffeeBuilder.Math_min 4 (CoffeeBuilder.level n + 1) = CoffeeBuilder.level (Z.min 4 (n + 1)).
Proof. intros H. each_level H; reflexivity. Qed.

Lemma level_down_to_1 n :
  1 <= n <= 4 ->
  CoffeeBuilder.Math_max 1 (CoffeeBuilder.level n - 1) = CoffeeBuilder.level (Z.max 1 (n - 1)).
Proof. intros H. each_level H; reflexivity. Qed.

Lemma handle_in_ranges e su m co ch :
  in_ranges su co ch ->
  exists su' m' co' ch',
    in_ranges su' co' ch' /\
    CoffeeBuilder.handle e (CoffeeBuilder.state_of su m co ch)
    = CoffeeBuilder.state_of su' m' co' ch'.
Proof.
  intros (Hsu & Hco & Hch).
  destruct e; unfold CoffeeBuilder.handle, CoffeeBuilder.state_of; simpl.
  - exists (Z.max 0 (su - 1)), m, co, ch. rewrite level_down_to_0 by done.
    split; [unfold in_ranges; lia|done].
  - exists (Z.min 5 (su + 1)), m, co, ch. rewrite level_up_to_5 by done.
    split; [unfold in_ranges; lia|done].
  - exists su, r, co, ch. done.
  - exists su, m, (Z.max 1 (co - 1)), ch. rewrite level_down_to_1 by done.
    split; [unfold in_ranges; lia|done].
  - exists su, m, (Z.min 4 (co + 1)), ch. rewrite level_up_to_4 by done.
    split; [unfold in_ranges; lia|done].
  - exists su, m, co, (Z.max 0 (ch - 1)). rewrite level_down_to_0 by done.
    split; [unfold in_ranges; lia|done].
  - exists su, m, co, (Z.min 5 (ch + 1)). rewrite level_up_to_5 by done.
    split; [unfold in_ranges; lia|done].
Qed.

Lemma run_in_ranges es su m co ch :
  in_ranges su co ch ->
  exists su' m' co' ch',
    in_ranges su' co' ch' /\
    CoffeeBuilder.run es (CoffeeBuilder.state_of su m co ch)
    = CoffeeBuilder.state_of su' m' co' ch'.
Proof.
  revert su m co ch. induction es as [|e es IH]; intros su m co ch Hin.
  - by exists su, m, co, ch.
  - destruct (handle_in_ranges e su m co ch Hin) as (su1 & m1 & co1 & ch1 & Hin1 & Heq).
    unfold CoffeeBuilder.run in *. simpl. rewrite Heq. by apply IH.
Qed.

Lemma in_ranges_reachable su m co ch :
  in_ranges su co ch -> CoffeeBuilder.reachable (CoffeeBuilder.state_of su m co ch).
Proof.
  intros (Hsu & Hco & Hch). exists (clicks_to su m co ch).
  each_level Hsu; each_level Hco; each_level Hch; destruct m; reflexivity.
Qed.

(** C9. The option states the builder can reach are those with sugar in
    0..5, milk none, regular or oat, coffee shots in 1..4 and chocolate
    in 0..5.  In each of them the computed price is exactly
    3.50 + 0.25 sugar + (0, 0.50 or 0.75 for the milk) + 0.75 (coffee - 1)
    + 0.50 chocolate, and raising sugar, coffee or chocolate never lowers
    it. *)
Theorem coffee_price_formula :
  (forall s,
      CoffeeBuilder.reachable s <->
      exists su m co ch, in_ranges su co ch /\ s = CoffeeBuilder.state_of su m co ch) /\
  (forall su m co ch,
      in_ranges su co ch ->
      (exists q,
          float_to_Q (CoffeeBuilder.calculatePrice (CoffeeBuilder.state_of su m co ch))
          = Some q /\ (q == spec_price su m co ch)%Q) /\
      (forall su', su <= su' <= 5 ->
         (CoffeeBuilder.calculatePrice (CoffeeBuilder.state_of su m co ch)
          <=? CoffeeBuilder.calculatePrice (CoffeeBuilder.state_of su' m co ch))%float
         = true) /\
      (forall co', co <= co' <= 4 ->
         (CoffeeBuilder.calculatePrice (CoffeeBuilder.state_of su m co ch)
          <=? CoffeeBuilder.calculatePrice (CoffeeBuilder.state_of su m co' ch))%float
         = true) /\
      (forall ch', ch <= ch' <= 5 ->
         (CoffeeBuilder.calculatePrice (CoffeeBuilder.state_of su m co ch)
          <=? CoffeeBuilder.calculatePrice (CoffeeBuilder.state_of su m co ch'))%float
         = true)).
Proof.
  split.
  - intros s. split.
    + intros [es ->].
      destruct (run_in_ranges es 0 CoffeeBuilder.RadioNone 1 0)
        as (su & m & co & ch & Hin & Heq); [unfold in_ranges; lia|].
      by exists su, m, co, ch.
    + intros (su & m & co & ch & Hin & ->). by apply in_ranges_reachable.
  - intros su m co ch Hin. split.
    + pose proof (all_states_spec _ all_prices_exact su m co ch Hin) as Hq.
      unfold price_exact, price_of in Hq.
      destruct (float_to_Q _) as [q|]; [|done].
      exists q. split; [done|]. by apply Qeq_bool_eq.
    + pose proof (all_states_spec _ all_prices_monotone su m co ch Hin) as Hm.
      unfold price_monotone, price_of in Hm.
      apply andb_true_iff in Hm as [[H1 H2]%andb_true_iff H3].
      repeat split; intros x Hx.
      * exact (zall_spec _ _ _ H1 x Hx).
      * exact (zall_spec _ _ _ H2 x Hx).
      * exact (zall_spec _ _ _ H3 x Hx).
Qed.

Lemma coffee_price_formula_witness :
  exists q,
    float_to_Q (CoffeeBuilder.calculatePrice
                  (CoffeeBuilder.state_of 2 CoffeeBuilder.RadioOat 3 1)) = Some q /\
    (q == 27 # 4)%Q.
Proof.
  destruct coffee_price_formula as [_ H].
  destruct (H 2 CoffeeBuilder.RadioOat 3 1) as [(q & Hq & Heq) _].
  - unfold in_ranges. lia.
  - exists q. split; [exact Hq|]. apply (Qeq_trans _ _ _ Heq). reflexivity.
Defined.

(** ** Checkout *)





(** C4 (as stated, refuted). With one call in flight the Place Order
    control is still on screen, and pressing it again puts a second call
    in flight. *)
Lemma second_press_sends_second_call :
  exists w1 w2,
    CartPage.run
      [CartPage.Click CartPage.ProceedToCheckout; CartPage.Click CartPage.PlaceOrder]
      one_item_world = Normal w1 /\
    length (CartPage.in_flight w1) = 1%nat /\
    CartPage.rendered w1 CartPage.PlaceOrder = true /\
    CartPage.step (CartPage.Click CartPage.PlaceOrder) w1 = Normal w2 /\
    length (CartPage.in_flight w2) = 2%nat.
Proof. eexists _, _. repeat split. Qed.

Lemma place_order_sends (w : CartPage.World) :
  CartPage.rendered w CartPage.PlaceOrder = true ->
  CartPage.step (CartPage.Click CartPage.PlaceOrder) w
  = Normal (CartPage.handleCheckout_send w) /\
  CartPage.rendered (CartPage.handleCheckout_send w) CartPage.PlaceOrder = true.
Proof. intros Hr. simpl. by rewrite Hr. Qed.

(** C4 (amended). The page keeps no in-flight flag, and the Place Order
    control stays on screen while a call is in flight.  Every confirm
    press sends exactly one order-creation call built from the cart of
    that moment, however many calls are in flight already, and changes
    nothing else; so [n] presses before any call settles leave [n] more
    calls in flight. *)
Theorem place_order_always_sends (w : CartPage.World) :
  CartPage.rendered w CartPage.PlaceOrder = true ->
  (exists w',
      CartPage.step (CartPage.Click CartPage.PlaceOrder) w = Normal w' /\
      CartPage.in_flight w'
      = CartPage.in_flight w
        ++ [CartPage.mkRequest "/api/orders" "POST" (CartPage.orderData (CartPage.cart w))] /\
      CartPage.cart w' = CartPage.cart w /\
      CartPage.showCheckout w' = CartPage.showCheckout w /\
      CartPage.toast w' = CartPage.toast w /\
      CartPage.rendered w' CartPage.PlaceOrder = true) /\
  (forall n,
      exists w',
        CartPage.run (repeat (CartPage.Click CartPage.PlaceOrder) n) w = Normal w' /\
        length (CartPage.in_flight w') = (length (CartPage.in_flight w) + n)%nat).
Proof.
  intros Hr. split.
  - destruct (place_order_sends w Hr) as [Hstep Hr'].
    eexists. split; [exact Hstep|]. by repeat split.
  - intros n. revert w Hr. induction n as [|n IH]; intros w Hr.
    + exists w. split; [done|]. lia.
    + destruct (place_order_sends w Hr) as [Hstep Hr'].
      destruct (IH _ Hr') as (w' & Hrun & Hlen).
      exists w'. split.
      * change (repeat (CartPage.Click CartPage.PlaceOrder) (S n))
          with (CartPage.Click CartPage.PlaceOrder
                  :: repeat (CartPage.Click CartPage.PlaceOrder) n).
        cbn [CartPage.run]. rewrite Hstep. exact Hrun.
      * rewrite Hlen. unfold CartPage.handleCheckout_send, CartPage.fetch. simpl.
        rewrite length_app. simpl. lia.
Qed.

Lemma place_order_always_sends_witness :
  exists w',
    CartPage.run (repeat (CartPage.Click CartPage.PlaceOrder) 3)
      (CartPage.setShowCheckout true one_item_world) = Normal w' /\
    length (CartPage.in_flight w') = 3%nat.
Proof.
  destruct (place_order_always_sends (CartPage.setShowCheckout true one_item_world))
    as [_ H]; [reflexivity|].
  exact (H 3%nat).
Defined.

(** ** The cart on mount *)

(** C5 (as stated, refuted). With unparseable text in the slot, the
    effect that loads the cart raises a SyntaxError instead of leaving
    the cart empty. *)
Lemma corrupt_slot_raises :
  JSON.parse "{oops" = Throw SyntaxError /\
  load_cart (<["cart" := "{oops"]> ∅) = Throw SyntaxError.
Proof. split; reflexivity. Qed.

(** C5 (amended). On session start the cart store reads the slot under
    the key "cart".  If the slot is absent, or holds the empty string,
    the cart is empty.  Otherwise the cart becomes what [JSON.parse]
    makes of the text, and when the text does not parse the SyntaxError
    of [JSON.parse] escapes the effect: nothing catches it. *)
Theorem load_cart_outcomes (storage : localStorage) :
  (storage !! "cart" = None -> load_cart storage = Normal (VArr [])) /\
  (storage !! "cart" = Some EmptyString -> load_cart storage = Normal (VArr [])) /\
  (forall text,
      storage !! "cart" = Some text -> text <> EmptyString ->
      load_cart storage = JSON.parse text /\
      (JSON.parse text = Throw SyntaxError -> load_cart storage = Throw SyntaxError)).
Proof.
  unfold load_cart, getItem. split; [|split].
  - by intros ->.
  - by intros ->.
  - intros text -> Htext%String.eqb_neq. rewrite Htext. simpl.
    split; [by destruct (JSON.parse text)|]. by intros ->.
Qed.

Lemma load_cart_outcomes_witness :
  load_cart ∅ = Normal (VArr []) /\
  load_cart (<["cart" := "[]"]> ∅) = Normal (VArr []) /\
  load_cart (<["cart" := "[1;2]"]> ∅) = Throw SyntaxError.
Proof.
  split; [|split].
  - apply (proj1 (load_cart_outcomes ∅)). reflexivity.
  - destruct (load_cart_outcomes (<["cart" := "[]"]> ∅)) as (_ & _ & H).
    destruct (H "[]") as [-> _]; [reflexivity|discriminate|reflexivity].
  - destruct (load_cart_outcomes (<["cart" := "[1;2]"]> ∅)) as (_ & _ & H).
    destruct (H "[1;2]") as [_ Hthrow]; [reflexivity|discriminate|].
    apply Hthrow. reflexivity.
Defined.

(** ** Entries as shared objects *)

Section shared.
Implicit Types (h : gmap nat CartItem.t) (arr : list nat) (cart : Cart).

Lemma view_cons_Some h r arr cart :
  Shared.view h (r :: arr) = Some cart <->
  exists item items, cart = item :: items /\ h !! r = Some item /\ Shared.view h arr = Some items.
Proof.
  simpl. split.
  - destruct (h !! r) as [item|]; simpl; [|done].
    destruct (Shared.view h arr) as [items|]; simpl; [|done].
    intros [= <-]. by exists item, items.
  - intros (item & items & -> & -> & Hitems). simpl. by rewrite Hitems.
Qed.

Lemma view_length h arr cart : Shared.view h arr = Some cart -> length cart = length arr.
Proof.
  revert cart. induction arr as [|r arr IH]; intros cart.
  - by intros [= <-].
  - intros (item & items & -> & _ & Hitems)%view_cons_Some. simpl. f_equal. by apply IH.
Qed.

Lemma view_app h arr1 arr2 cart1 cart2 :
  Shared.view h arr1 = Some cart1 -> Shared.view h arr2 = Some cart2 ->
  Shared.view h (arr1 ++ arr2) = Some (cart1 ++ cart2).
Proof.
  revert cart1. induction arr1 as [|r arr1 IH]; intros cart1.
  - by intros [= <-].
  - intros (item & items & -> & Hr & Hitems)%view_cons_Some H2.
    apply view_cons_Some. exists item, (items ++ cart2). split; [done|]. split; [done|].
    by apply IH.
Qed.

Lemma view_app_inv h arr cart1 cart2 :
  Shared.view h arr = Some (cart1 ++ cart2) ->
  exists arr1 arr2,
    arr = arr1 ++ arr2 /\ Shared.view h arr1 = Some cart1 /\ Shared.view h arr2 = Some cart2.
Proof.
  revert arr. induction cart1 as [|item cart1 IH]; intros arr Hview.
  - by exists [], arr.
  - destruct arr as [|r arr]; [done|].
    apply view_cons_Some in Hview as (item' & items & [= <- <-] & Hr & Hitems).
    destruct (IH arr Hitems) as (arr1 & arr2 & -> & H1 & H2).
    exists (r :: arr1), arr2. split; [done|]. split; [|done].
    apply view_cons_Some. by exists item, cart1.
Qed.

Lemma view_in_dom h arr cart r :
  Shared.view h arr = Some cart -> r ∈ arr -> r ∈ dom h.
Proof.
  revert cart. induction arr as [|r' arr IH]; intros cart Hview Hin; [by inv Hin|].
  apply view_cons_Some in Hview as (item & items & -> & Hr & Hitems).
  apply elem_of_cons in Hin as [->|Hin].
  - apply elem_of_dom. by exists item.
  - by eapply IH.
Qed.

(** A write to an object does not show through arrays that do not hold it. *)
Lemma view_insert_other h arr r item :
  r ∉ arr -> Shared.view (<[r := item]> h) arr = Shared.view h arr.
Proof.
  induction arr as [|r' arr IH]; [done|].
  intros [Hne Hnotin]%not_elem_of_cons. simpl.
  by rewrite lookup_insert_ne, IH.
Qed.

Lemma findIndex_view product h arr cart i :
  Shared.view h arr = Some cart ->
  findIndex_from (Shared.mergeable_at product h) arr i
  = findIndex_from (mergeable product) cart i.
Proof.
  revert cart i. induction arr as [|r arr IH]; intros cart i.
  - by intros [= <-].
  - intros (item & items & -> & Hr & Hitems)%view_cons_Some. simpl.
    unfold Shared.mergeable_at at 1. rewrite Hr.
    destruct (mergeable product item); [done|]. by apply IH.
Qed.

(** The write through the copied array: seen through an array that holds
    each entry once, it replaces the entry at that place. *)
Lemma view_write h arr1 arr2 r cart1 cart2 item :
  NoDup (arr1 ++ r :: arr2) ->
  Shared.view h arr1 = Some cart1 -> Shared.view h arr2 = Some cart2 ->
  Shared.view (<[r := item]> h) (arr1 ++ r :: arr2) = Some (cart1 ++ item :: cart2).
Proof.
  intros (Hnd1 & Hnotin & [Hr2 _]%NoDup_cons)%NoDup_app H1 H2.
  apply view_app.
  - rewrite view_insert_other; [done|]. intros Hin. apply (Hnotin r Hin). by left.
  - apply view_cons_Some. exists item, cart2. split; [done|].
    split; [by rewrite lookup_insert_eq|]. by rewrite view_insert_other.
Qed.

(** X18. [addToCart] on shared objects does what the updater on values
    does, as long as the array holds each entry once; the array it
    returns again holds each entry once. *)
Lemma shared_addToCart_refines product q c h arr cart :
  Shared.view h arr = Some cart -> NoDup arr ->
  exists arr' h' cart',
    Shared.addToCart product q c arr h = Normal (arr', h') /\
    addToCart product q c cart = Normal cart' /\
    Shared.view h' arr' = Some cart' /\ NoDup arr'.
Proof.
  intros Hview Hnd. unfold Shared.addToCart, findIndex.
  rewrite (findIndex_view product h arr cart 0 Hview).
  destruct (ToBoolean c) eqn:Hc.
  - rewrite addToCart_append_custom by done. simpl. rewrite andb_false_r.
    pose proof (is_fresh (dom h)) as Hfresh.
    assert (fresh (dom h) ∉ arr) as Hnotin
      by (intros Hin; by apply Hfresh, (view_in_dom h arr cart)).
    eexists _, _, _. split; [done|]. split; [done|]. split.
    + apply view_app; [by rewrite view_insert_other|].
      simpl. by rewrite lookup_insert_eq.
    + apply NoDup_app. split; [done|]. split; [|apply NoDup_singleton].
      by intros r Hr ->%list_elem_of_singleton.
  - destruct (first_split (mergeable product) cart)
      as [Hnone|(c1 & item & c2 & -> & Hc1 & Hitem)].
    + rewrite addToCart_append_new by done.
      rewrite (findIndex_from_none _ _ _ Hnone). simpl.
      pose proof (is_fresh (dom h)) as Hfresh.
      assert (fresh (dom h) ∉ arr) as Hnotin
        by (intros Hin; by apply Hfresh, (view_in_dom h arr cart)).
      eexists _, _, _. split; [done|]. split; [done|]. split.
      * apply view_app; [by rewrite view_insert_other|].
        simpl. by rewrite lookup_insert_eq.
      * apply NoDup_app. split; [done|]. split; [|apply NoDup_singleton].
        by intros r Hr ->%list_elem_of_singleton.
    + rewrite addToCart_merge by done.
      rewrite (findIndex_from_first _ _ _ _ _ Hc1 Hitem).
      destruct (view_app_inv h arr c1 (item :: c2) Hview) as (a1 & [|r a2] & -> & H1 & H2);
        [done|].
      apply view_cons_Some in H2 as (? & ? & [= <- <-] & Hr & H2).
      rewrite (view_length _ _ _ H1).
      destruct (Z.gtb_spec (0 + Z.of_nat (length a1)) (-1)); [|lia]. simpl.
      unfold js_index. destruct (Z.leb_spec 0 (0 + Z.of_nat (length a1))); [|lia].
      replace (Z.to_nat (0 + Z.of_nat (length a1))) with (length a1) by lia.
      rewrite list_lookup_middle by done. simpl. rewrite Hr. simpl.
      eexists _, _, _. split; [done|]. split; [done|]. split; [|done].
      by apply view_write.
Qed.

(** In the merging branch the array returned holds the same references
    as the previous one, so the previous array shows the new quantity as
    well. *)
Lemma shared_addToCart_merge_aliases product q c h arr arr' h' :
  Shared.addToCart product q c arr h = Normal (arr', h') ->
  length arr' = length arr -> arr' = arr.
Proof.
  unfold Shared.addToCart.
  destruct (_ && _).
  - destruct (_ ≫= _) as [[r item]|]; [|done]. by intros [= <- _].
  - intros [= <- _]. rewrite length_app. simpl. lia.
Qed.
(** X19. The write of [updateQuantity] through the copied array, on
    shared objects, does what the updater on values does, and raises
    when it does, as long as the array holds each entry once. *)
Lemma shared_updateQuantity_refines index q h arr cart :
  Shared.view h arr = Some cart -> NoDup arr -> (q <=? 0)%float = false ->
  match updateQuantity index q cart with
  | Normal cart' =>
      exists h',
        Shared.updateQuantity_write index q arr h = Normal (arr, h') /\
        Shared.view h' arr = Some cart'
  | Throw e => Shared.updateQuantity_write index q arr h = Throw e
  end.
Proof.
  intros Hview Hnd Hq. unfold updateQuantity, Shared.updateQuantity_write, js_index.
  rewrite Hq. destruct (0 <=? index); [|done].
  destruct (cart !! Z.to_nat index) as [item|] eqn:Hitem.
  - pose proof (take_drop_middle cart _ _ Hitem) as Hsplit.
    rewrite <- Hsplit in Hview.
    destruct (view_app_inv h arr _ _ Hview) as (a1 & [|r a2] & -> & H1 & H2); [done|].
    apply view_cons_Some in H2 as (? & ? & [= <- <-] & Hr & H2).
    assert (length a1 = Z.to_nat index) as Hlen.
    { rewrite <- (view_length _ _ _ H1), length_take.
      apply lookup_lt_Some in Hitem. lia. }
    rewrite list_lookup_middle by done. simpl. rewrite Hr. simpl.
    eexists. split; [done|].
    rewrite <- Hsplit, insert_app_r_alt by (rewrite length_take; lia).
    replace (Z.to_nat index - length (take (Z.to_nat index) cart))%nat with 0%nat
      by (apply lookup_lt_Some in Hitem; rewrite length_take; lia).
    simpl. by apply view_write.
  - apply lookup_ge_None in Hitem. rewrite (view_length _ _ _ Hview) in Hitem.
    apply lookup_ge_None in Hitem. by rewrite Hitem.
Qed.
End shared.

(** The updater writes into the state that precedes it: applied a second
    time to the same previous array, it adds the quantity again. *)
Example updater_applied_twice :
  let h : gmap nat CartItem.t := {[ 0%nat := spread test_product 1 VNull ]} in
  exists h1 h2,
    Shared.addToCart test_product 1 VNull [0%nat] h = Normal ([0%nat], h1) /\
    Shared.view h1 [0%nat] = Some [spread test_product 2 VNull] /\
    Shared.addToCart test_product 1 VNull [0%nat] h1 = Normal ([0%nat], h2) /\
    Shared.view h2 [0%nat] = Some [spread test_product 3 VNull].
Proof. eexists _, _. repeat split. Qed.

(** ** Further facts the test suite relies on *)

(** The builder always hands a customization to [addToCart], so a coffee
    is always appended, with the price computed from the options. *)
Lemma handleAddToCart_appends now s (cart : Cart) :
  exists item,
    CoffeeBuilder.handleAddToCart now s cart = Normal (cart ++ [item]) /\
    CartItem._id item = "custom-coffee-" +:+ pretty now /\
    CartItem.price item = CoffeeBuilder.calculatePrice s /\
    CartItem.quantity item = 1%float /\
    ToBoolean (CartItem.customCoffee item) = true.
Proof.
  unfold CoffeeBuilder.handleAddToCart. rewrite addToCart_append_custom by done.
  eexists. split; [reflexivity|]. by repeat split.
Qed.

(** A call with the defaults, [addToCart(product)], asks for one unit and
    passes no customization. *)
Example addToCart_defaults :
  (addToCart_call test_product None None [] ≫= addToCart_call test_product None None)
  = Normal [spread test_product 2 VNull].
Proof. reflexivity. Qed.

(** Sums are binary64 sums: two units at 3.99 and one at 5.99. *)
Example total_is_a_binary64_sum :
  getCartTotal
    [spread (Product.mk "1" "Espresso" 3.99 "Coffee" EmptyString EmptyString) 2 VNull;
     spread (Product.mk "2" "Custom Coffee" 5.99 "Coffee" EmptyString EmptyString) 1
       size_large]
  = 13.970000000000001%float.
Proof. reflexivity. Qed.

Example parse_array :
  JSON.parse " [1, 2.5e3, -0.125, true, null, [], {}] "
  = Normal (VArr [VNum 1; VNum 2500; VNum (-0.125); VBool true; VNull; VArr []; VObj []]).
Proof. reflexivity. Qed.

Example parse_decimal : JSON.parse "3.99" = Normal (VNum 3.99).
Proof. reflexivity. Qed.

Example parse_trailing_comma : JSON.parse "[1,]" = Throw SyntaxError.
Proof. reflexivity. Qed.

(** * Further properties of the code *)

(** ** The cart store *)






(** X2. [updateQuantity] with a quantity that is not [<= 0], at an index
    in range, sets the quantity of that entry to exactly the number
    given and touches nothing else; a second update of the same entry
    overrides the first. *)
Theorem updateQuantity_sets (cart : Cart) (index : Z) (q : float) item :
  0 <= index -> cart !! Z.to_nat index = Some item -> (q <=? 0)%float = false ->
  exists cart',
    updateQuantity index q cart = Normal cart' /\
    length cart' = length cart /\
    cart' !! Z.to_nat index = Some (CartItem.set_quantity q item) /\
    (forall j, j <> Z.to_nat index -> cart' !! j = cart !! j) /\
    (forall q', (q' <=? 0)%float = false ->
                updateQuantity index q' cart' = updateQuantity index q' cart).
Proof.
  intros Hindex Hitem Hq.
  assert (forall q0 (cart0 : Cart) item0,
             cart0 !! Z.to_nat index = Some item0 -> (q0 <=? 0)%float = false ->
             updateQuantity index q0 cart0
             = Normal (<[Z.to_nat index := CartItem.set_quantity q0 item0]> cart0)) as Hset.
  { intros q0 cart0 item0 Hitem0 Hq0. unfold updateQuantity, js_index.
    rewrite Hq0. destruct (Z.leb_spec 0 index); [|lia]. by rewrite Hitem0. }
  pose proof (lookup_lt_Some _ _ _ Hitem) as Hlt.
  eexists. split; [by apply Hset|]. split; [by rewrite length_insert|].
  split; [by rewrite list_lookup_insert_eq|].
  split; [intros j Hj; by rewrite list_lookup_insert_ne|].
  intros q' Hq'. rewrite (Hset q' cart item Hitem Hq').
  erewrite Hset; [|by rewrite list_lookup_insert_eq|done].
  rewrite list_insert_insert_eq. by destruct item.
Qed.

Lemma updateQuantity_sets_witness :
  updateQuantity 0 3 [spread test_product 1 VNull] = Normal [spread test_product 3 VNull].
Proof.
  destruct (updateQuantity_sets [spread test_product 1 VNull] 0 3%float
              (spread test_product 1 VNull)) as (cart' & Hrun & Hlen & Hq & _);
    [lia|reflexivity|reflexivity|].
  rewrite Hrun. destruct cart' as [|x [|? ?]]; [done| |done].
  simpl in Hq. by injection Hq as ->.
Defined.

Lemma delete_appended {A} (l : list A) x : delete (length l) (l ++ [x]) = l.
Proof.
  rewrite delete_take_drop, take_app_length.
  rewrite drop_ge by (rewrite length_app; simpl; lia). by rewrite app_nil_r.
Qed.

(** X3. An entry that [addToCart] has appended (the call carried a
    customization, or the cart had no uncustomized entry for the
    product) is at the end of the cart: removing the last index gives
    the previous cart back. *)
Theorem remove_undoes_append product q c (cart : Cart) :
  ToBoolean c = true \/ Forall (fun y => mergeable product y = false) cart ->
  (addToCart product q c cart ≫= removeFromCart (Z.of_nat (length cart))) = Normal cart.
Proof.
  intros Happ.
  assert (addToCart product q c cart = Normal (cart ++ [spread product q c])) as ->.
  { destruct Happ; [by apply addToCart_append_custom|by apply addToCart_append_new]. }
  simpl. unfold removeFromCart.
  rewrite js_filter_remove_in_range by (rewrite length_app; simpl; lia).
  by rewrite Nat2Z.id, delete_appended.
Qed.

Lemma remove_undoes_append_witness :
  (addToCart coffee_product 1 size_large [spread test_product 1 VNull]
     ≫= removeFromCart 1) = Normal [spread test_product 1 VNull].
Proof.
  apply (remove_undoes_append coffee_product 1%float size_large
           [spread test_product 1 VNull]).
  left. reflexivity.
Defined.

(** X4. When [addToCart] appends, the count grows by the requested
    quantity and the total by price times quantity, in the arithmetic of
    the program. *)
Theorem append_adds_to_totals product q c (cart : Cart) :
  ToBoolean c = true \/ Forall (fun y => mergeable product y = false) cart ->
  exists cart',
    addToCart product q c cart = Normal cart' /\
    getCartCount cart' = (getCartCount cart + q)%float /\
    getCartTotal cart' = (getCartTotal cart + Product.price product * q)%float.
Proof.
  intros Happ. exists (cart ++ [spread product q c]). split.
  - destruct Happ; [by apply addToCart_append_custom|by apply addToCart_append_new].
  - unfold getCartCount, getCartTotal, reduce. by rewrite !fold_left_app.
Qed.

Lemma append_adds_to_totals_witness :
  exists cart',
    addToCart coffee_product 1 size_large [spread test_product 1 VNull] = Normal cart' /\
    getCartCount cart' = 2%float /\ getCartTotal cart' = 25%float.
Proof.
  destruct (append_adds_to_totals coffee_product 1%float size_large
              [spread test_product 1 VNull]) as (cart' & Hrun & Hcount & Htotal);
    [left; reflexivity|].
  exists cart'. split; [exact Hrun|]. split.
  - rewrite Hcount. reflexivity.
  - rewrite Htotal. reflexivity.
Defined.

(** ** The cart page *)

Lemma removeFromCart_positive index (cart cart' : Cart) :
  positive_quantities cart -> removeFromCart index cart = Normal cart' ->
  positive_quantities cart'.
Proof.
  intros Hpos [= <-]. unfold positive_quantities.
  destruct (decide (0 <= index < Z.of_nat (length cart))) as [Hin|Hout].
  - rewrite js_filter_remove_in_range by done. by apply Forall_delete.
  - by rewrite js_filter_remove_out_of_range by lia.
Qed.

Lemma updateQuantity_positive index q (cart cart' : Cart) :
  positive_quantities cart -> updateQuantity index q cart = Normal cart' ->
  positive_quantities cart'.
Proof.
  intros Hpos. unfold updateQuantity.
  destruct (q <=? 0)%float eqn:Hq; [by apply removeFromCart_positive|].
  destruct (js_index cart index) as [item|]; [|done].
  intros [= <-]. by apply Forall_insert.
Qed.

Lemma removeFromCart_length index (cart cart' : Cart) :
  removeFromCart index cart = Normal cart' -> (length cart' <= length cart)%nat.
Proof.
  intros [= <-].
  destruct (decide (0 <= index < Z.of_nat (length cart))) as [Hin|Hout].
  - rewrite js_filter_remove_in_range by done.
    rewrite length_delete; [lia|]. apply lookup_lt_is_Some. lia.
  - by rewrite js_filter_remove_out_of_range by lia.
Qed.

(** At an index in range [updateQuantity] cannot raise. *)
Lemma updateQuantity_in_range index q (cart : Cart) :
  0 <= index < Z.of_nat (length cart) ->
  exists cart',
    updateQuantity index q cart = Normal cart' /\ (length cart' <= length cart)%nat.
Proof.
  intros Hin. unfold updateQuantity.
  destruct (q <=? 0)%float.
  - eexists. split; [done|]. by eapply removeFromCart_length.
  - destruct (js_index_in_range cart index Hin) as [item ->].
    eexists. split; [done|]. by rewrite length_insert.
Qed.

Lemma rendered_nonempty (w : CartPage.World) c :
  CartPage.rendered w c = true -> CartPage.cart w <> [].
Proof. unfold CartPage.rendered. by destruct (CartPage.cart w). Qed.

Lemma rendered_index_in_range (w : CartPage.World) c index :
  c = CartPage.Minus index \/ c = CartPage.Plus index \/ c = CartPage.Remove index ->
  CartPage.rendered w c = true ->
  0 <= index < Z.of_nat (length (CartPage.cart w)).
Proof.
  unfold CartPage.rendered. destruct (CartPage.cart w); [done|].
  intros [->|[->| ->]] [? ?]%andb_true_iff; lia.
Qed.

(** The invariants a click keeps, for a click that changes the cart
    through one of the store's updaters. *)
Lemma setCart_keeps f (w : CartPage.World) cart' :
  f (CartPage.cart w) = Normal cart' ->
  (length cart' <= length (CartPage.cart w))%nat ->
  (no_duplicate_plain (CartPage.cart w) -> no_duplicate_plain cart') ->
  (positive_quantities (CartPage.cart w) -> positive_quantities cart') ->
  exists w',
    CartPage.setCart f w = Normal w' /\
    CartPage.cart w' = cart' /\
    CartPage.in_flight w' = CartPage.in_flight w /\
    (no_duplicate_plain (CartPage.cart w) -> no_duplicate_plain (CartPage.cart w')) /\
    (positive_quantities (CartPage.cart w) -> positive_quantities (CartPage.cart w')) /\
    (length (CartPage.cart w') <= length (CartPage.cart w))%nat.
Proof.
  intros Hf Hlen Hnd Hpos. unfold CartPage.setCart. rewrite Hf. simpl.
  eexists. by repeat split.
Qed.

(** X5. No click on the cart page raises: the quantity and remove
    buttons exist only for indices in range, so the TypeError of an
    out-of-range update cannot come from the page.  A click never
    lengthens the cart, and it keeps the cart free of duplicate
    uncustomized entries and of quantities [<= 0]. *)
Theorem cart_page_clicks_are_safe (w : CartPage.World) (c : CartPage.control) :
  exists w',
    CartPage.step (CartPage.Click c) w = Normal w' /\
    (no_duplicate_plain (CartPage.cart w) -> no_duplicate_plain (CartPage.cart w')) /\
    (positive_quantities (CartPage.cart w) -> positive_quantities (CartPage.cart w')) /\
    (length (CartPage.cart w') <= length (CartPage.cart w))%nat.
Proof.
  assert (exists w', @Normal CartPage.World w = Normal w' /\
            (no_duplicate_plain (CartPage.cart w) -> no_duplicate_plain (CartPage.cart w')) /\
            (positive_quantities (CartPage.cart w) -> positive_quantities (CartPage.cart w')) /\
            (length (CartPage.cart w') <= length (CartPage.cart w))%nat) as Hsame
    by by exists w.
  simpl. destruct (CartPage.rendered w c) eqn:Hr; [|exact Hsame].
  destruct c; simpl; try (eexists; by repeat split).
  - pose proof (rendered_index_in_range w _ index (or_introl eq_refl) Hr) as Hin.
    destruct (js_index_in_range _ _ Hin) as [item ->].
    destruct (updateQuantity_in_range index (CartItem.quantity item - 1)%float _ Hin)
      as (cart' & Hupd & Hlen).
    destruct (setCart_keeps _ w cart' Hupd Hlen) as (w' & -> & _ & _ & H1 & H2 & H3).
    + intros Hnd. by eapply updateQuantity_no_duplicate.
    + intros Hpos. by eapply updateQuantity_positive.
    + by exists w'.
  - pose proof (rendered_index_in_range w _ index (or_intror (or_introl eq_refl)) Hr) as Hin.
    destruct (js_index_in_range _ _ Hin) as [item ->].
    destruct (updateQuantity_in_range index (CartItem.quantity item + 1)%float _ Hin)
      as (cart' & Hupd & Hlen).
    destruct (setCart_keeps _ w cart' Hupd Hlen) as (w' & -> & _ & _ & H1 & H2 & H3).
    + intros Hnd. by eapply updateQuantity_no_duplicate.
    + intros Hpos. by eapply updateQuantity_positive.
    + by exists w'.
  - destruct (setCart_keeps (removeFromCart index) w _ eq_refl)
      as (w' & -> & _ & _ & H1 & H2 & H3).
    + by eapply removeFromCart_length.
    + intros Hnd. by eapply removeFromCart_no_duplicate.
    + intros Hpos. by eapply removeFromCart_positive.
    + by exists w'.
  - eexists. split; [done|]. simpl. split; [intros; apply NoDup_nil_2|].
    split; [intros; apply Forall_nil_2|lia].
Qed.

(** X6. The minus button of an entry lowers its quantity by one, and
    removes the entry when that would leave a quantity [<= 0]; in
    particular it removes an entry whose quantity is 1.  Nothing else on
    the page changes. *)
Theorem minus_button (w : CartPage.World) (index : Z) item :
  js_index (CartPage.cart w) index = Some item ->
  exists w',
    CartPage.step (CartPage.Click (CartPage.Minus index)) w = Normal w' /\
    CartPage.cart w'
    = (if (CartItem.quantity item - 1 <=? 0)%float
       then delete (Z.to_nat index) (CartPage.cart w)
       else <[Z.to_nat index := CartItem.set_quantity (CartItem.quantity item - 1)%float item]>
              (CartPage.cart w)) /\
    (CartItem.quantity item = 1%float ->
     CartPage.cart w' = delete (Z.to_nat index) (CartPage.cart w)) /\
    CartPage.showCheckout w' = CartPage.showCheckout w /\
    CartPage.toast w' = CartPage.toast w /\
    CartPage.in_flight w' = CartPage.in_flight w.
Proof.
  intros Hitem.
  assert (0 <= index < Z.of_nat (length (CartPage.cart w))) as Hin.
  { unfold js_index in Hitem. destruct (Z.leb_spec 0 index); [|done].
    apply lookup_lt_Some in Hitem. lia. }
  assert (CartPage.rendered w (CartPage.Minus index) = true) as Hr.
  { unfold CartPage.rendered. destruct (CartPage.cart w); [simpl in Hin; lia|].
    apply andb_true_iff. split; [apply Z.leb_le|apply Z.ltb_lt]; lia. }
  simpl. rewrite Hr. simpl. rewrite Hitem.
  unfold CartPage.setCart, updateQuantity, removeFromCart.
  rewrite js_filter_remove_in_range by done.
  destruct (CartItem.quantity item - 1 <=? 0)%float eqn:Hq; simpl.
  - eexists. by repeat split.
  - rewrite Hitem. simpl. eexists. split; [done|]. split; [done|].
    split; [|done]. intros Hone. rewrite Hone in Hq. by vm_compute in Hq.
Qed.

Lemma minus_button_witness :
  exists w',
    CartPage.step (CartPage.Click (CartPage.Minus 0)) one_item_world = Normal w' /\
    CartPage.cart w' = [].
Proof.
  destruct (minus_button one_item_world 0 (spread test_product 1 VNull))
    as (w' & Hstep & _ & Hone & _); [reflexivity|].
  exists w'. split; [exact Hstep|]. rewrite Hone; reflexivity.
Defined.

(** X7. With an empty cart the page offers nothing to click: whatever is
    clicked, nothing changes, and no order can be sent. *)
Theorem empty_cart_page_is_inert (w : CartPage.World) (cs : list CartPage.control) :
  CartPage.cart w = [] ->
  CartPage.run (map CartPage.Click cs) w = Normal w.
Proof.
  intros Hempty. induction cs as [|c cs IH]; [done|].
  simpl. unfold CartPage.rendered. rewrite Hempty. simpl. exact IH.
Qed.

Lemma empty_cart_page_is_inert_witness :
  let w := CartPage.mkWorld [] true None [] [] [] in
  CartPage.run (map CartPage.Click [CartPage.PlaceOrder; CartPage.ProceedToCheckout]) w
  = Normal w.
Proof.
  intros w. apply (empty_cart_page_is_inert w). reflexivity.
Defined.

(** X8. When an order call settles with a status in 200-299 the cart is
    still untouched: the success toast is set and one timer of 2000 ms is
    added.  Whenever a timer of the page fires, whatever the cart holds
    by then, the cart is emptied and the confirmation is closed; from
    then on the page shows only its empty state, without any control
    and without the toast. *)
Theorem checkout_success_clears_cart :
  (forall (w : CartPage.World) k request response,
      CartPage.in_flight w !! k = Some request ->
      200 <= CartPage.status response <= 299 ->
      exists w',
        CartPage.step (CartPage.Settle k (CartPage.Resolves response)) w = Normal w' /\
        CartPage.cart w' = CartPage.cart w /\
        CartPage.showCheckout w' = CartPage.showCheckout w /\
        CartPage.toast w' = Some CartPage.msg_success /\
        CartPage.timers w' = CartPage.timers w ++ [2000] /\
        CartPage.in_flight w' = delete k (CartPage.in_flight w)) /\
  (forall (w : CartPage.World),
      CartPage.timers w <> [] ->
      exists w',
        CartPage.step CartPage.TimerFires w = Normal w' /\
        CartPage.cart w' = [] /\
        CartPage.showCheckout w' = false /\
        S (length (CartPage.timers w')) = length (CartPage.timers w) /\
        getCartCount (CartPage.cart w') = 0%float /\
        (forall c, CartPage.rendered w' c = false) /\
        CartPage.shown_toast w' = None).
Proof.
  split.
  - intros w k request response Hk [Hlo Hhi]. simpl. rewrite Hk.
    unfold CartPage.handleCheckout_settle, CartPage.ok. simpl.
    destruct (Z.leb_spec 200 (CartPage.status response)); [|lia].
    destruct (Z.leb_spec (CartPage.status response) 299); [|lia]. simpl.
    eexists. by repeat split.
  - intros w Htimers. simpl. destruct (CartPage.timers w) as [|d rest]; [done|].
    simpl. eexists. by repeat split.
Qed.

Lemma checkout_success_clears_cart_witness :
  exists w1 w2,
    CartPage.step (CartPage.Settle 0 (CartPage.Resolves (CartPage.mkResponse 201)))
      order_sent_world = Normal w1 /\
    CartPage.cart w1 = [spread test_product 1 VNull] /\
    CartPage.step CartPage.TimerFires w1 = Normal w2 /\
    CartPage.cart w2 = [].
Proof.
  destruct checkout_success_clears_cart as [Hsettle Hfire].
  destruct (Hsettle order_sent_world 0%nat test_request (CartPage.mkResponse 201))
    as (w1 & Hstep & Hcart & _ & _ & Htimers & _); [reflexivity|simpl; lia|].
  destruct (Hfire w1) as (w2 & Hstep2 & Hcart2 & _).
  { rewrite Htimers. discriminate. }
  exists w1, w2. by repeat split.
Defined.

(** X9. The order payload lists the cart entry by entry, in cart order,
    with the id, name, price and quantity of each; an entry without a
    customization carries [undefined] (so the field is left out of the
    JSON), one with a customization carries it as it is.  The total sent
    is the sum of price times quantity over the lines sent. *)
Theorem order_payload_matches_cart (cart : Cart) :
  let order := CartPage.orderData cart in
  length (CartPage.items order) = length cart /\
  (forall i item,
      cart !! i = Some item ->
      CartPage.items order !! i
      = Some (CartPage.mkLine (CartItem._id item) (CartItem.name item)
                (CartItem.price item) (CartItem.quantity item)
                (if plain item then VUndefined else CartItem.customCoffee item))) /\
  CartPage.totalAmount order
  = sigma (map (fun line => (CartPage.price line * CartPage.quantity line)%float)
             (CartPage.items order)).
Proof.
  simpl. split; [by rewrite length_map|]. split.
  - intros i item Hi. change (@map) with (@fmap list _). rewrite list_lookup_fmap, Hi.
    simpl. unfold CartPage.js_or, plain.
    by destruct (ToBoolean (CartItem.customCoffee item)).
  - unfold getCartTotal. rewrite reduce_sigma, map_map. done.
Qed.

(** X10. A failed order can be tried again: after an order call has
    failed (a status outside 200-299, or a rejected call), the Place
    Order control is still there, and pressing it sends a call with the
    same payload as the first, which is no longer in flight. *)
Theorem failed_order_can_be_retried (w : CartPage.World) (o : CartPage.outcome) :
  CartPage.rendered w CartPage.PlaceOrder = true -> failed o ->
  exists w',
    CartPage.run
      [CartPage.Click CartPage.PlaceOrder;
       CartPage.Settle (length (CartPage.in_flight w)) o;
       CartPage.Click CartPage.PlaceOrder] w = Normal w' /\
    CartPage.in_flight w'
    = CartPage.in_flight w
      ++ [CartPage.mkRequest "/api/orders" "POST" (CartPage.orderData (CartPage.cart w))] /\
    CartPage.cart w' = CartPage.cart w /\
    CartPage.timers w' = CartPage.timers w.
Proof.
  intros Hr Hfailed.
  assert (CartPage.cart w <> [] /\ CartPage.showCheckout w = true) as [Hcart Hshow].
  { unfold CartPage.rendered in Hr. by destruct (CartPage.cart w). }
  cbn [CartPage.run CartPage.step]. rewrite Hr. simpl.
  rewrite list_lookup_middle by done.
  rewrite delete_take_drop, take_app_length.
  rewrite drop_ge by (rewrite length_app; simpl; lia). rewrite app_nil_r.
  destruct o as [response|reason]; simpl in Hfailed.
  - unfold CartPage.handleCheckout_settle. simpl. rewrite Hfailed. simpl.
    unfold CartPage.rendered. simpl. destruct (CartPage.cart w) eqn:Hc; [done|].
    rewrite Hshow. simpl. eexists. by repeat split.
  - unfold CartPage.handleCheckout_settle. simpl.
    unfold CartPage.rendered. simpl. destruct (CartPage.cart w) eqn:Hc; [done|].
    rewrite Hshow. simpl. eexists. by repeat split.
Qed.

Lemma failed_order_can_be_retried_witness :
  exists w',
    CartPage.run
      [CartPage.Click CartPage.PlaceOrder;
       CartPage.Settle 0 (CartPage.Rejects (VStr "Network error"));
       CartPage.Click CartPage.PlaceOrder]
      (CartPage.setShowCheckout true one_item_world) = Normal w' /\
    CartPage.in_flight w' = [test_request].
Proof.
  destruct (failed_order_can_be_retried (CartPage.setShowCheckout true one_item_world)
              (CartPage.Rejects (VStr "Network error")))
    as (w' & Hrun & Hflight & _); [reflexivity|exact I|].
  exists w'. split; [exact Hrun|exact Hflight].
Defined.

(** ** The coffee builder *)

(** X11. On every option state within the ranges, each [-] and [+]
    button moves its own option by exactly one and leaves the others
    alone, except that [-] does nothing at the lowest level (0 sugar,
    1 shot, 0 chocolate) and [+] nothing at the highest (5, 4, 5); a
    milk radio button sets the milk and nothing else. *)
Theorem builder_buttons_step_and_clamp su m co ch :
  in_ranges su co ch ->
  let s := CoffeeBuilder.state_of su m co ch in
  CoffeeBuilder.handle CoffeeBuilder.SugarMinus s
  = CoffeeBuilder.state_of (Z.max 0 (su - 1)) m co ch /\
  CoffeeBuilder.handle CoffeeBuilder.SugarPlus s
  = CoffeeBuilder.state_of (Z.min 5 (su + 1)) m co ch /\
  CoffeeBuilder.handle CoffeeBuilder.CoffeeMinus s
  = CoffeeBuilder.state_of su m (Z.max 1 (co - 1)) ch /\
  CoffeeBuilder.handle CoffeeBuilder.CoffeePlus s
  = CoffeeBuilder.state_of su m (Z.min 4 (co + 1)) ch /\
  CoffeeBuilder.handle CoffeeBuilder.ChocolateMinus s
  = CoffeeBuilder.state_of su m co (Z.max 0 (ch - 1)) /\
  CoffeeBuilder.handle CoffeeBuilder.ChocolatePlus s
  = CoffeeBuilder.state_of su m co (Z.min 5 (ch + 1)) /\
  (forall r, CoffeeBuilder.handle (CoffeeBuilder.MilkChange r) s
             = CoffeeBuilder.state_of su r co ch).
Proof.
  intros (Hsu & Hco & Hch). simpl.
  unfold CoffeeBuilder.handle, CoffeeBuilder.state_of. simpl.
  rewrite !level_down_to_0, !level_up_to_5, level_down_to_1, level_up_to_4 by done.
  by repeat split.
Qed.

Lemma builder_buttons_step_and_clamp_witness :
  CoffeeBuilder.handle CoffeeBuilder.SugarPlus
    (CoffeeBuilder.state_of 5 CoffeeBuilder.RadioNone 1 0)
  = CoffeeBuilder.state_of 5 CoffeeBuilder.RadioNone 1 0 /\
  CoffeeBuilder.handle CoffeeBuilder.CoffeeMinus
    (CoffeeBuilder.state_of 5 CoffeeBuilder.RadioNone 1 0)
  = CoffeeBuilder.state_of 5 CoffeeBuilder.RadioNone 1 0.
Proof.
  destruct (builder_buttons_step_and_clamp 5 CoffeeBuilder.RadioNone 1 0)
    as (_ & Hplus & Hminus & _); [unfold in_ranges; lia|].
  split; [exact Hplus|exact Hminus].
Defined.

Lemma all_prices_bounded : all_states price_bounds = true.
Proof. vm_compute. reflexivity. Qed.

(** X12. On every option state within the ranges the price lies between
    3.50 and 10.25.  It is 3.50 only for the options the builder starts
    with (no sugar, no milk, one shot, no chocolate) and 10.25 only with
    every option at its highest (5 sugar, oat milk, 4 shots, 5
    chocolate). *)
Theorem coffee_price_bounds su m co ch :
  in_ranges su co ch ->
  let p := CoffeeBuilder.calculatePrice (CoffeeBuilder.state_of su m co ch) in
  (3.5 <=? p)%float = true /\ (p <=? 10.25)%float = true /\
  ((p =? 3.5)%float = true <->
   su = 0 /\ m = CoffeeBuilder.RadioNone /\ co = 1 /\ ch = 0) /\
  ((p =? 10.25)%float = true <->
   su = 5 /\ m = CoffeeBuilder.RadioOat /\ co = 4 /\ ch = 5).
Proof.
  intros Hin. simpl.
  pose proof (all_states_spec _ all_prices_bounded su m co ch Hin) as Hb.
  unfold price_bounds, price_of in Hb.
  apply andb_true_iff in Hb as [[[Hlo Hhi]%andb_true_iff Hmin]%andb_true_iff Hmax].
  apply Bool.eqb_prop in Hmin, Hmax. rewrite Hmin, Hmax.
  split; [done|]. split; [done|].
  rewrite !andb_true_iff, !Z.eqb_eq.
  split; (split; [intros [[[? ?] ?] ?]; by destruct m|intros (-> & -> & -> & ->); done]).
Qed.

Lemma coffee_price_bounds_witness :
  (CoffeeBuilder.calculatePrice CoffeeBuilder.initial =? 3.5)%float = true.
Proof.
  destruct (coffee_price_bounds 0 CoffeeBuilder.RadioNone 1 0) as (_ & _ & [_ Hmin] & _);
    [unfold in_ranges; lia|].
  apply Hmin. by repeat split.
Defined.

Lemma custom_coffee_id_inj (now1 now2 : Z) :
  "custom-coffee-" +:+ pretty now1 = "custom-coffee-" +:+ pretty now2 -> now1 = now2.
Proof.
  intros Heq. apply (inj (@pretty Z _)). simpl in Heq. by simplify_eq.
Qed.

(** X13. Adding the built coffee never raises and always appends one
    entry: one unit, named "Custom Coffee", at the price computed from
    the options, with the four options attached, whatever the cart holds
    (an earlier coffee with the same options and even the same id is
    kept beside it).  The count grows by one.  Coffees built at
    different [Date.now()] values get different ids. *)
Theorem built_coffee_is_appended :
  (forall now s (cart : Cart),
      exists item,
        CoffeeBuilder.handleAddToCart now s cart = Normal (cart ++ [item]) /\
        CartItem._id item = "custom-coffee-" +:+ pretty now /\
        CartItem.name item = "Custom Coffee" /\
        CartItem.price item = CoffeeBuilder.calculatePrice s /\
        CartItem.quantity item = 1%float /\
        CartItem.customCoffee item = coffeeConfig s /\
        getCartCount (cart ++ [item]) = (getCartCount cart + 1)%float) /\
  (forall now1 now2 s1 s2 item1 item2,
      CoffeeBuilder.handleAddToCart now1 s1 [] = Normal [item1] ->
      CoffeeBuilder.handleAddToCart now2 s2 [] = Normal [item2] ->
      now1 <> now2 -> CartItem._id item1 <> CartItem._id item2).
Proof.
  split.
  - intros now s cart. unfold CoffeeBuilder.handleAddToCart.
    rewrite addToCart_append_custom by done.
    eexists. split; [reflexivity|]. repeat split.
    unfold getCartCount, reduce. by rewrite fold_left_app.
  - intros now1 now2 s1 s2 item1 item2. unfold CoffeeBuilder.handleAddToCart.
    rewrite !addToCart_append_custom by done. simpl.
    intros [= <-] [= <-] Hne Heq. simpl in Heq.
    by apply Hne, custom_coffee_id_inj.
Qed.

Lemma built_coffee_is_appended_witness :
  let built now :=
    spread (Product.mk ("custom-coffee-" +:+ pretty now) "Custom Coffee" 3.5 "Coffee"
              "Your custom coffee creation" CoffeeBuilder.image)
      1 (coffeeConfig CoffeeBuilder.initial) in
  CartItem._id (built 1700000000000) <> CartItem._id (built 1700000000001).
Proof.
  intros built.
  destruct built_coffee_is_appended as [_ H].
  apply (H 1700000000000 1700000000001 CoffeeBuilder.initial CoffeeBuilder.initial
           (built 1700000000000) (built 1700000000001)); [reflexivity|reflexivity|lia].
Defined.

(** ** The shop page *)

Lemma filter_from_ignores_index {A} (f : A -> bool) (l : list A) i :
  filter_from (fun x _ => f x) l i = filter (fun x => f x) l.
Proof.
  revert i. induction l as [|x l IH]; intros i; simpl; [done|].
  rewrite filter_cons, IH. destruct (f x); by case_decide.
Qed.

(** X14. With "All" selected the shop shows every product.  With any
    other category selected it shows exactly the products whose category
    is equal to it, in the order of the list; nothing is ever shown that
    is not in the list. *)
Theorem shop_filter_by_category (w : Shop.World) :
  (Shop.selectedCategory w = "All" -> Shop.filteredProducts w = Shop.products w) /\
  (Shop.selectedCategory w <> "All" ->
   forall p, p ∈ Shop.filteredProducts w <->
             p ∈ Shop.products w /\ Listing.category p = Shop.selectedCategory w) /\
  sublist (Shop.filteredProducts w) (Shop.products w).
Proof.
  unfold Shop.filteredProducts, js_filter. rewrite filter_from_ignores_index.
  split; [by intros ->|]. split.
  - intros Hne%String.eqb_neq. rewrite Hne. intros p.
    rewrite list_elem_of_filter, Is_true_true, String.eqb_eq. tauto.
  - destruct (String.eqb _ _); [done|apply sublist_filter].
Qed.

Lemma shop_filter_by_category_witness :
  let tea := Listing.mk (Product.mk "7" "Tea" 3 "Coffee" EmptyString EmptyString) true in
  let book := Listing.mk (Product.mk "8" "Novel" 12 "Books" EmptyString EmptyString) true in
  let w := Shop.setSelectedCategory "Books" (Shop.setProducts [tea; book] (Shop.initial [])) in
  book ∈ Shop.filteredProducts w /\ Shop.filteredProducts w = [book].
Proof.
  intros tea book w. split; [|reflexivity].
  destruct (shop_filter_by_category w) as (_ & H & _).
  apply H; [discriminate|]. split; [|reflexivity]. right. left.
Defined.




(** ** The admin page *)

(** X16. When a save is answered with a status in 200-299 and a product,
    the table becomes the rows as they were when Save was pressed, with
    every row whose id is the id of the product the server returned
    replaced by that product and every other row as it was (so nothing
    changes if no row has that id); the number of rows stays, the editor
    closes and the toast names the product that was edited. *)
Theorem admin_save_replaces_rows
    (rows : list Listing.t) (editing updated : Listing.t) (status : Z) (w : Admin.World) :
  200 <= status <= 299 ->
  exists w',
    Admin.handleSave_settle rows editing (Responded status (Normal updated)) w = Normal w' /\
    length (Admin.products w') = length rows /\
    (forall i p,
        rows !! i = Some p ->
        Admin.products w' !! i
        = Some (if decide (Listing._id p = Listing._id updated) then updated else p)) /\
    (Forall (fun p => Listing._id p <> Listing._id updated) rows ->
     Admin.products w' = rows) /\
    Admin.editingProduct w' = None /\
    Admin.toast w' = Some (Admin.updated_message (Listing.name editing)).
Proof.
  intros [Hlo Hhi]. unfold Admin.handleSave_settle. simpl.
  destruct (Z.leb_spec 200 status); [|lia]. destruct (Z.leb_spec status 299); [|lia].
  simpl. eexists. split; [done|]. simpl. unfold Admin.replace_product.
  split; [by rewrite length_map|]. split; [|split; [|done]].
  - intros i p Hi. change (@map) with (@fmap list _). rewrite list_lookup_fmap, Hi. simpl.
    case_decide as Hid.
    + by rewrite (proj2 (String.eqb_eq _ _) Hid).
    + by rewrite (proj2 (String.eqb_neq _ _) Hid).
  - induction 1 as [|p rows' Hp _ IH]; [done|]. simpl.
    by rewrite (proj2 (String.eqb_neq _ _) Hp), IH.
Qed.

Lemma admin_save_replaces_rows_witness :
  let espresso := Listing.mk (Product.mk "1" "Espresso" 3.99 "Coffee" EmptyString EmptyString) true in
  let dearer := Listing.mk (Product.mk "1" "Espresso" 4.5 "Coffee" EmptyString EmptyString) false in
  let other := Listing.mk coffee_product true in
  exists w',
    Admin.handleSave_settle [espresso; other] espresso (Responded 200 (Normal dearer))
      (Admin.mkWorld [espresso; other] (Some espresso) None false []) = Normal w' /\
    Admin.products w' = [dearer; other].
Proof.
  intros espresso dearer other.
  destruct (admin_save_replaces_rows [espresso; other] espresso dearer 200
              (Admin.mkWorld [espresso; other] (Some espresso) None false []))
    as (w' & Hrun & _); [lia|].
  exists w'. split; [exact Hrun|].
  vm_compute in Hrun. by injection Hrun as <-.
Defined.

(** X17. A save that fails leaves the table and the editor as they are,
    so the edit can be sent again, and it does not raise: a status
    outside 200-299 gives the toast "Failed to update product"; a
    rejected call, or a body that cannot be read, is logged and gives
    "Error updating product". *)
Theorem admin_save_failure_keeps_edit
    (rows : list Listing.t) (editing : Listing.t) (w : Admin.World) :
  (forall status json,
      ~ (200 <= status <= 299) ->
      exists w',
        Admin.handleSave_settle rows editing (Responded status json) w = Normal w' /\
        Admin.products w' = Admin.products w /\
        Admin.editingProduct w' = Admin.editingProduct w /\
        Admin.console w' = Admin.console w /\
        Admin.toast w' = Some "Failed to update product") /\
  (forall o e,
      o = Rejected e \/ (exists status, 200 <= status <= 299 /\ o = Responded status (Throw e)) ->
      exists w',
        Admin.handleSave_settle rows editing o w = Normal w' /\
        Admin.products w' = Admin.products w /\
        Admin.editingProduct w' = Admin.editingProduct w /\
        Admin.console w' = Admin.console w ++ [("Error updating product:", e)] /\
        Admin.toast w' = Some "Error updating product").
Proof.
  split.
  - intros status json Hstatus. unfold Admin.handleSave_settle. simpl.
    assert ((200 <=? status) && (status <=? 299) = false) as ->.
    { apply andb_false_iff. rewrite !Z.leb_gt. lia. }
    simpl. eexists. by repeat split.
  - intros o e [->|(status & [Hlo Hhi] & ->)]; unfold Admin.handleSave_settle; simpl.
    + eexists. by repeat split.
    + destruct (Z.leb_spec 200 status); [|lia]. destruct (Z.leb_spec status 299); [|lia].
      simpl. eexists. by repeat split.
Qed.

Lemma admin_save_failure_keeps_edit_witness :
  let espresso := Listing.mk (Product.mk "1" "Espresso" 3.99 "Coffee" EmptyString EmptyString) true in
  let w := Admin.mkWorld [espresso] (Some espresso) None false [] in
  exists w',
    Admin.handleSave_settle [espresso] espresso (Responded 500 (Throw SyntaxError)) w
    = Normal w' /\
    Admin.editingProduct w' = Some espresso /\
    Admin.toast w' = Some "Failed to update product".
Proof.
  intros espresso w.
  destruct (admin_save_failure_keeps_edit [espresso] espresso w) as [H _].
  destruct (H 500 (Throw SyntaxError)) as (w' & Hrun & _ & Hedit & _ & Htoast); [lia|].
  exists w'. split; [exact Hrun|]. split; [exact Hedit|exact Htoast].
Defined.

(** ** Writes through shared entries *)

Lemma shared_addToCart_refines_witness :
  let h : gmap nat CartItem.t := {[ 0%nat := spread test_product 1 VNull ]} in
  exists arr' h' cart',
    Shared.addToCart test_product 1 VNull [0%nat] h = Normal (arr', h') /\
    addToCart test_product 1 VNull [spread test_product 1 VNull] = Normal cart' /\
    Shared.view h' arr' = Some cart' /\ NoDup arr'.
Proof.
  intros h.
  apply (shared_addToCart_refines test_product 1%float VNull h [0%nat]
           [spread test_product 1 VNull]); [reflexivity|apply NoDup_singleton].
Defined.

Lemma shared_updateQuantity_refines_witness :
  let h : gmap nat CartItem.t := {[ 0%nat := spread test_product 1 VNull ]} in
  match updateQuantity 0 3 [spread test_product 1 VNull] with
  | Normal cart' =>
      exists h',
        Shared.updateQuantity_write 0 3 [0%nat] h = Normal ([0%nat], h') /\
        Shared.view h' [0%nat] = Some cart'
  | Throw e => Shared.updateQuantity_write 0 3 [0%nat] h = Throw e
  end.
Proof.
  intros h.
  apply (shared_updateQuantity_refines 0 3%float h [0%nat] [spread test_product 1 VNull]);
    [reflexivity|apply NoDup_singleton|reflexivity].
Defined.
